(** * ScrapeCraft front end: the workflow synchronisation layer

    A shallow embedding of the three zustand stores that keep the
    workflow state of a pipeline in step with the server
    ([workflowStore], [websocketStore], [chatStore]/[pipelineStore] as far
    as the dispatcher touches them), of the sidebar's phase-status
    derivation and of the approval manager's dual submission.

    Conventions.
    - A zustand [set(partial)] is a shallow merge: it is written as a
      record update of exactly the listed fields.
    - An [async] action is split at its single [await]: [f_begin] runs up to
      the request, [f_settle] runs from the response to the end of the
      [finally] block. [f] composes the two for the case where nothing is
      interleaved; a request that never settles is [None].
    - Payloads typed [any] in the source are taken at the interface the
      source declares for them. *)

From Stdlib Require Import ZArith Lia.
From stdpp Require Import prelude strings pretty.

Set Default Proof Using "Type".


(** Values of TypeScript type [any] that the stores only carry around. *)
Unset Elimination Schemes.
Inductive json : Type :=
  | JNull
  | JBool (b : bool)
  | JNum (n : Z)
  | JStr (s : string)
  | JArr (items : list json)
  | JObj (members : list (string * json)).
Set Elimination Schemes.

(** [a || dflt] on an optional string: the empty string is falsy too. *)
Definition or_default (a : option string) (dflt : string) : string :=
  match a with
  | Some s => if decide (s = "") then dflt else s
  | None => dflt
  end.

(** ** workflowStore.ts *)
Module WorkflowStore.

Inductive WorkflowPhase : Type :=
  | INITIAL
  | URL_COLLECTION
  | URL_VALIDATION
  | SCHEMA_DEFINITION
  | SCHEMA_VALIDATION
  | CODE_GENERATION
  | READY_TO_EXECUTE
  | EXECUTING
  | COMPLETED
  | ERROR.

#[global] Instance WorkflowPhase_eq_dec : EqDecision WorkflowPhase.
Proof. solve_decision. Defined.

(** The string value of each enum member. *)
Definition phase_value (p : WorkflowPhase) : string :=
  match p with
  | INITIAL => "initial"
  | URL_COLLECTION => "url_collection"
  | URL_VALIDATION => "url_validation"
  | SCHEMA_DEFINITION => "schema_definition"
  | SCHEMA_VALIDATION => "schema_validation"
  | CODE_GENERATION => "code_generation"
  | READY_TO_EXECUTE => "ready_to_execute"
  | EXECUTING => "executing"
  | COMPLETED => "completed"
  | ERROR => "error"
  end.

Inductive Relevance : Type := high | medium | low.

Record URLInfo : Type := {
  url : string;
  url_description : string;
  relevance : Relevance;
  validated : bool;
  validation_reason : option string;
  added_at : string;
  added_by : string
}.

Record SchemaField : Type := {
  name : string;
  type : string;
  description : string;
  required : bool;
  example : option string
}.

Inductive ApprovalStatus : Type := pending | approved | rejected | expired.

#[global] Instance ApprovalStatus_eq_dec : EqDecision ApprovalStatus.
Proof. solve_decision. Defined.

Record ApprovalRequest : Type := {
  id : string;
  approval_phase : WorkflowPhase;
  action : string;
  data : json;
  approval_created_at : string;
  expires_at : option string;
  status : ApprovalStatus
}.

Record WorkflowTransition : Type := {
  from_phase : WorkflowPhase;
  to_phase : WorkflowPhase;
  timestamp : string;
  reason : option string;
  triggered_by : string
}.

Record WorkflowState : Type := {
  pipeline_id : string;
  phase : WorkflowPhase;
  urls : list URLInfo;
  urls_validated : bool;
  schema_fields : list SchemaField;
  schema_validated : bool;
  generated_code : string;
  code_validated : bool;
  execution_results : list json;
  execution_status : option string;
  pending_approvals : list ApprovalRequest;
  approval_history : list ApprovalRequest;
  phase_transitions : list WorkflowTransition;
  user_modifications : list json;
  created_at : string;
  updated_at : string;
  created_by : string;
  last_modified_by : string;
  version : Z
}.

(** [{ ...w, phase }] *)
Definition with_phase (p : WorkflowPhase) (w : WorkflowState) : WorkflowState :=
  {| pipeline_id := pipeline_id w; phase := p; urls := urls w;
     urls_validated := urls_validated w; schema_fields := schema_fields w;
     schema_validated := schema_validated w;
     generated_code := generated_code w; code_validated := code_validated w;
     execution_results := execution_results w;
     execution_status := execution_status w;
     pending_approvals := pending_approvals w;
     approval_history := approval_history w;
     phase_transitions := phase_transitions w;
     user_modifications := user_modifications w;
     created_at := created_at w; updated_at := updated_at w;
     created_by := created_by w; last_modified_by := last_modified_by w;
     version := version w |}.

(** [{ ...w, urls: us }] *)
Definition with_urls (us : list URLInfo) (w : WorkflowState) : WorkflowState :=
  {| pipeline_id := pipeline_id w; phase := phase w; urls := us;
     urls_validated := urls_validated w; schema_fields := schema_fields w;
     schema_validated := schema_validated w;
     generated_code := generated_code w; code_validated := code_validated w;
     execution_results := execution_results w;
     execution_status := execution_status w;
     pending_approvals := pending_approvals w;
     approval_history := approval_history w;
     phase_transitions := phase_transitions w;
     user_modifications := user_modifications w;
     created_at := created_at w; updated_at := updated_at w;
     created_by := created_by w; last_modified_by := last_modified_by w;
     version := version w |}.

(** The state half of [WorkflowStore]; the actions are the functions below. *)
Record Store : Type := {
  currentWorkflow : option WorkflowState;
  workflowHistory : list WorkflowTransition;
  pendingApprovals : list ApprovalRequest;
  isProcessing : bool;
  error : option string
}.

Definition initial : Store :=
  {| currentWorkflow := None; workflowHistory := []; pendingApprovals := [];
     isProcessing := false; error := None |}.

(** Shallow merges of one field. *)
Definition set_currentWorkflow (c : option WorkflowState) (s : Store) : Store :=
  {| currentWorkflow := c; workflowHistory := workflowHistory s;
     pendingApprovals := pendingApprovals s; isProcessing := isProcessing s;
     error := error s |}.

Definition set_workflowHistory (h : list WorkflowTransition) (s : Store) : Store :=
  {| currentWorkflow := currentWorkflow s; workflowHistory := h;
     pendingApprovals := pendingApprovals s; isProcessing := isProcessing s;
     error := error s |}.

Definition set_pendingApprovals (p : list ApprovalRequest) (s : Store) : Store :=
  {| currentWorkflow := currentWorkflow s; workflowHistory := workflowHistory s;
     pendingApprovals := p; isProcessing := isProcessing s; error := error s |}.

Definition set_isProcessing (b : bool) (s : Store) : Store :=
  {| currentWorkflow := currentWorkflow s; workflowHistory := workflowHistory s;
     pendingApprovals := pendingApprovals s; isProcessing := b;
     error := error s |}.

Definition set_error (e : option string) (s : Store) : Store :=
  {| currentWorkflow := currentWorkflow s; workflowHistory := workflowHistory s;
     pendingApprovals := pendingApprovals s; isProcessing := isProcessing s;
     error := e |}.

(** *** Synchronous actions *)

Definition setWorkflow (workflow : WorkflowState) (s : Store) : Store :=
  {| currentWorkflow := Some workflow;
     workflowHistory := phase_transitions workflow;
     pendingApprovals := pending_approvals workflow;
     isProcessing := isProcessing s;
     error := error s |}.

Definition updateWorkflowPhase (p : WorkflowPhase) (s : Store) : Store :=
  set_currentWorkflow
    (match currentWorkflow s with
     | Some w => Some (with_phase p w)
     | None => None
     end) s.

Definition addURLs (us : list URLInfo) (s : Store) : Store :=
  set_currentWorkflow
    (match currentWorkflow s with
     | Some w => Some (with_urls (urls w ++ us) w)
     | None => None
     end) s.

Definition clearError (s : Store) : Store := set_error None s.

(** *** The request/response channel *)

Inductive RequestBody : Type :=
  | BodyURLs (us : list URLInfo)
  | BodySchema (fields : list SchemaField)
  | BodyApprove (approval_id : string) (approved : bool) (reason : option string)
  | BodyTransition (target_phase : WorkflowPhase) (reason : option string)
  | NoBody.

Inductive Method : Type := GET | POST.

Record Request : Type := {
  method : Method;
  path : string;
  body : RequestBody
}.

(** How an awaited [api] call settles: it resolves with a payload, or it
    rejects with an error whose [response?.data?.detail] is [detail]. *)
Inductive Settled (A : Type) : Type :=
  | Resolved (payload : A)
  | Rejected (detail : option string).
Arguments Resolved {A} payload.
Arguments Rejected {A} detail.

(** [try { set(ok(payload)) } catch { set({ error: detail || msg }) }
     finally { set({ isProcessing: false }) }] *)
Definition settle {A : Type} (ok : A -> Store -> Store) (msg : string)
    (r : Settled A) (s : Store) : Store :=
  set_isProcessing false
    (match r with
     | Resolved payload => ok payload s
     | Rejected detail => set_error (Some (or_default detail msg)) s
     end).

(** [set({ isProcessing: true, error: null })] *)
Definition start_processing (s : Store) : Store :=
  set_error None (set_isProcessing true s).

(** The guard and the request shared by the four mutation entry points. *)
Definition guarded_begin (endpoint : string) (b : RequestBody) (s : Store)
    : Store * option Request :=
  match currentWorkflow s with
  | None => (s, None)
  | Some w =>
      (start_processing s,
       Some {| method := POST;
               path := "/workflow/" +:+ pipeline_id w +:+ endpoint;
               body := b |})
  end.

(** Begin, then settle if a request went out and its answer arrived. *)
Definition run_async {A : Type} (begin : Store -> Store * option Request)
    (finish : Settled A -> Store -> Store) (r : option (Settled A))
    (s : Store) : Store :=
  match begin s with
  | (s', None) => s'
  | (s', Some _) =>
      match r with
      | Some answer => finish answer s'
      | None => s'
      end
  end.

Definition updateURLs_begin (us : list URLInfo) : Store -> Store * option Request :=
  guarded_begin "/urls" (BodyURLs us).
Definition updateURLs_settle : Settled WorkflowState -> Store -> Store :=
  settle (fun w => set_currentWorkflow (Some w)) "Failed to update URLs".
Definition updateURLs (us : list URLInfo) :=
  run_async (updateURLs_begin us) updateURLs_settle.

Definition updateSchema_begin (fields : list SchemaField)
    : Store -> Store * option Request :=
  guarded_begin "/schema" (BodySchema fields).
Definition updateSchema_settle : Settled WorkflowState -> Store -> Store :=
  settle (fun w => set_currentWorkflow (Some w)) "Failed to update schema".
Definition updateSchema (fields : list SchemaField) :=
  run_async (updateSchema_begin fields) updateSchema_settle.

Definition approveAction_begin (approvalId : string) (approved : bool)
    (reason : option string) : Store -> Store * option Request :=
  guarded_begin "/approve" (BodyApprove approvalId approved reason).
Definition approveAction_settle : Settled WorkflowState -> Store -> Store :=
  settle (fun w s =>
            set_pendingApprovals (pending_approvals w)
              (set_currentWorkflow (Some w) s))
         "Failed to process approval".
Definition approveAction (approvalId : string) (approved : bool)
    (reason : option string) :=
  run_async (approveAction_begin approvalId approved reason) approveAction_settle.

Definition transitionToPhase_begin (p : WorkflowPhase) (reason : option string)
    : Store -> Store * option Request :=
  guarded_begin "/transition" (BodyTransition p reason).
Definition transitionToPhase_settle : Settled WorkflowState -> Store -> Store :=
  settle (fun w => set_currentWorkflow (Some w)) "Failed to transition phase".
Definition transitionToPhase (p : WorkflowPhase) (reason : option string) :=
  run_async (transitionToPhase_begin p reason) transitionToPhase_settle.

Definition fetchWorkflow_begin (pipelineId : string) (s : Store)
    : Store * option Request :=
  (start_processing s,
   Some {| method := GET; path := "/workflow/" +:+ pipelineId; body := NoBody |}).
Definition fetchWorkflow_settle : Settled WorkflowState -> Store -> Store :=
  settle (fun w => set_currentWorkflow (Some w)) "Failed to fetch workflow".
Definition fetchWorkflow (pipelineId : string) :=
  run_async (fetchWorkflow_begin pipelineId) fetchWorkflow_settle.

Definition fetchWorkflowHistory_begin (pipelineId : string) (s : Store)
    : Store * option Request :=
  (s, Some {| method := GET; path := "/workflow/" +:+ pipelineId +:+ "/history";
              body := NoBody |}).
(** No [finally] here, and the [catch] only logs. *)
Definition fetchWorkflowHistory_settle
    (r : Settled (list WorkflowTransition)) (s : Store) : Store :=
  match r with
  | Resolved transitions => set_workflowHistory transitions s
  | Rejected _ => s
  end.
Definition fetchWorkflowHistory (pipelineId : string) :=
  run_async (fetchWorkflowHistory_begin pipelineId) fetchWorkflowHistory_settle.

(** *** The container seen as a whole *)

(** The five actions whose response carries a full workflow snapshot. *)
Inductive Call : Type :=
  | Call_updateURLs (us : list URLInfo)
  | Call_updateSchema (fields : list SchemaField)
  | Call_approveAction (approvalId : string) (approved : bool)
      (reason : option string)
  | Call_transitionToPhase (p : WorkflowPhase) (reason : option string)
  | Call_fetchWorkflow (pipelineId : string).

Definition begin_of (c : Call) : Store -> Store * option Request :=
  match c with
  | Call_updateURLs us => updateURLs_begin us
  | Call_updateSchema fields => updateSchema_begin fields
  | Call_approveAction a b r => approveAction_begin a b r
  | Call_transitionToPhase p r => transitionToPhase_begin p r
  | Call_fetchWorkflow pid => fetchWorkflow_begin pid
  end.

Definition settle_of (c : Call) : Settled WorkflowState -> Store -> Store :=
  match c with
  | Call_updateURLs _ => updateURLs_settle
  | Call_updateSchema _ => updateSchema_settle
  | Call_approveAction _ _ _ => approveAction_settle
  | Call_transitionToPhase _ _ => transitionToPhase_settle
  | Call_fetchWorkflow _ => fetchWorkflow_settle
  end.

(** Every way the store's state can change: a synchronous action, the
    part of an asynchronous action before its [await], or the part after
    it. Other operations may run between a [Begin] and its [Settle]. *)
Inductive Operation : Type :=
  | Op_setWorkflow (workflow : WorkflowState)
  | Op_updateWorkflowPhase (p : WorkflowPhase)
  | Op_addURLs (us : list URLInfo)
  | Op_clearError
  | Begin (c : Call)
  | Settle (c : Call) (r : Settled WorkflowState)
  | Begin_fetchWorkflowHistory (pipelineId : string)
  | Settle_fetchWorkflowHistory (r : Settled (list WorkflowTransition)).

Definition perform (op : Operation) (s : Store) : Store :=
  match op with
  | Op_setWorkflow workflow => setWorkflow workflow s
  | Op_updateWorkflowPhase p => updateWorkflowPhase p s
  | Op_addURLs us => addURLs us s
  | Op_clearError => clearError s
  | Begin c => fst (begin_of c s)
  | Settle c r => settle_of c r s
  | Begin_fetchWorkflowHistory pid => fst (fetchWorkflowHistory_begin pid s)
  | Settle_fetchWorkflowHistory r => fetchWorkflowHistory_settle r s
  end.

(** The snapshot an operation receives from outside the store, if any. *)
Definition supplied (op : Operation) : option WorkflowState :=
  match op with
  | Op_setWorkflow workflow => Some workflow
  | Settle _ (Resolved workflow) => Some workflow
  | _ => None
  end.

(** The transitions log agrees with the phase: its last entry leads to the
    current phase, or it is empty and the phase is the initial one. *)
Definition phase_consistent (w : WorkflowState) : Prop :=
  match last (phase_transitions w) with
  | Some t => to_phase t = phase w
  | None => phase w = INITIAL
  end.

Definition store_consistent (s : Store) : Prop :=
  match currentWorkflow s with
  | Some w => phase_consistent w
  | None => True
  end.

End WorkflowStore.

(** ** pipelineStore.ts, as far as the dispatcher reaches into it *)
Module PipelineStore.

Inductive PipelineStatus : Type := idle | running | completed | failed.

Record Pipeline : Type := {
  id : string;
  name : string;
  description : option string;
  urls : list string;
  schema : json;
  code : string;
  generated_code : option string;
  status : PipelineStatus;
  created_at : string;
  updated_at : string;
  results : option (list json);
  results_count : option Z;
  last_run : option string
}.

Record PipelineUpdate : Type := {
  new_name : option string;
  new_description : option string;
  new_urls : option (list string);
  new_schema : option json;
  new_code : option string
}.

Record Store : Type := {
  pipelines : list Pipeline;
  currentPipeline : option Pipeline;
  executionResults : list json;
  isLoading : bool
}.

(** [api.put(`/pipelines/${id}`, data)] *)
Record PutRequest : Type := {
  put_path : string;
  put_body : PipelineUpdate
}.

Definition updatePipeline_begin (pid : string) (upd : PipelineUpdate)
    : PutRequest :=
  {| put_path := "/pipelines/" +:+ pid; put_body := upd |}.

(** The continuation after the [await]; a failed request is only logged. *)
Definition updatePipeline_settle (pid : string) (r : option Pipeline)
    (s : Store) : Store :=
  match r with
  | Some updatedPipeline =>
      {| pipelines :=
           (fun p => if decide (id p = pid) then updatedPipeline else p)
             <$> pipelines s;
         currentPipeline :=
           match currentPipeline s with
           | Some c => if decide (id c = pid) then Some updatedPipeline else Some c
           | None => None
           end;
         executionResults := executionResults s;
         isLoading := isLoading s |}
  | None => s
  end.

(** *** The other actions of the store *)

Definition set_pipelines (l : list Pipeline) (s : Store) : Store :=
  {| pipelines := l; currentPipeline := currentPipeline s;
     executionResults := executionResults s; isLoading := isLoading s |}.

Definition set_currentPipeline (c : option Pipeline) (s : Store) : Store :=
  {| pipelines := pipelines s; currentPipeline := c;
     executionResults := executionResults s; isLoading := isLoading s |}.

Definition set_isLoading (b : bool) (s : Store) : Store :=
  {| pipelines := pipelines s; currentPipeline := currentPipeline s;
     executionResults := executionResults s; isLoading := b |}.

(** [{ ...p, status: st }] *)
Definition with_status (st : PipelineStatus) (p : Pipeline) : Pipeline :=
  {| id := id p; name := name p; description := description p;
     urls := urls p; schema := schema p; code := code p;
     generated_code := generated_code p; status := st;
     created_at := created_at p; updated_at := updated_at p;
     results := results p; results_count := results_count p;
     last_run := last_run p |}.

(** [{ ...p, status: 'completed', results: rs }] *)
Definition with_results (rs : list json) (p : Pipeline) : Pipeline :=
  {| id := id p; name := name p; description := description p;
     urls := urls p; schema := schema p; code := code p;
     generated_code := generated_code p; status := completed;
     created_at := created_at p; updated_at := updated_at p;
     results := Some rs; results_count := results_count p;
     last_run := last_run p |}.

(** [pipelines.map(p => p.id === id ? f(p) : p)] with the same rewrite of
    the selection, as [runPipeline] does three times. *)
Definition rewrite_pipeline (pid : string) (f : Pipeline -> Pipeline)
    (s : Store) : Store :=
  {| pipelines := (fun p => if decide (id p = pid) then f p else p)
                    <$> pipelines s;
     currentPipeline :=
       match currentPipeline s with
       | Some c => if decide (id c = pid) then Some (f c) else Some c
       | None => None
       end;
     executionResults := executionResults s;
     isLoading := isLoading s |}.

(** [fetchPipelines] after its [await]: [None] is a failed request, which
    is only logged. *)
Definition fetchPipelines_settle (r : option (list Pipeline)) (s : Store)
    : Store :=
  match r with
  | Some fetched =>
      let s1 := set_pipelines fetched s in
      match currentPipeline s1, pipelines s1 with
      | None, first :: _ => set_currentPipeline (Some first) s1
      | _, _ => s1
      end
  | None => s
  end.

Definition createPipeline_begin (s : Store) : Store := set_isLoading true s.

Definition createPipeline_settle (r : option Pipeline) (s : Store) : Store :=
  match r with
  | Some newPipeline =>
      {| pipelines := pipelines s ++ [newPipeline];
         currentPipeline := Some newPipeline;
         executionResults := executionResults s;
         isLoading := false |}
  | None => set_isLoading false s
  end.

(** [deletePipeline] after its [await]; [ok] tells whether the request
    succeeded. *)
Definition deletePipeline_settle (pid : string) (ok : bool) (s : Store)
    : Store :=
  if ok then
    let remaining := filter (fun p => id p <> pid) (pipelines s) in
    {| pipelines := remaining;
       currentPipeline :=
         match currentPipeline s with
         | Some c => if decide (id c = pid) then head remaining else Some c
         | None => None
         end;
       executionResults := executionResults s;
       isLoading := isLoading s |}
  else s.

Definition setCurrentPipeline (p : option Pipeline) (s : Store) : Store :=
  set_currentPipeline p s.

Definition setExecutionResults (rs : list json) (s : Store) : Store :=
  {| pipelines := pipelines s; currentPipeline := currentPipeline s;
     executionResults := rs; isLoading := isLoading s |}.

(** [schema || {}] and the like: the falsy values of JSON. *)
Definition json_truthy (j : json) : bool :=
  match j with
  | JNull | JBool false | JNum 0 | JStr "" => false
  | _ => true
  end.

(** The body of [api.post('/execution/execute', ...)]. *)
Record ExecuteRequest : Type := {
  exec_pipeline_id : string;
  exec_code : string;
  exec_urls : list string;
  exec_schema : json;
  exec_api_key : option string
}.

(** [runPipeline] up to its [await]. [apiKey] is what [localStorage] holds
    under SCRAPEGRAPH_API_KEY. The code, URLs and schema sent are those of
    the selected pipeline, whatever [pid] is. *)
Definition runPipeline_begin (apiKey : option string) (pid : string)
    (s : Store) : Store * option ExecuteRequest :=
  match currentPipeline s with
  | None => (s, None)
  | Some c =>
      (rewrite_pipeline pid (with_status running) s,
       Some {| exec_pipeline_id := pid;
               exec_code := or_default (generated_code c) "";
               exec_urls := urls c;
               exec_schema := if json_truthy (schema c) then schema c
                              else JObj [];
               exec_api_key := apiKey |})
  end.

(** [runPipeline] after its [await]: the results, or [None] when the
    request failed. *)
Definition runPipeline_settle (pid : string) (r : option (list json))
    (s : Store) : Store :=
  match r with
  | Some rs => setExecutionResults rs (rewrite_pipeline pid (with_results rs) s)
  | None => rewrite_pipeline pid (with_status failed) s
  end.

(** The state changes of the store that keep to its own list. *)
Inductive Change : Type :=
  | Updated (pid : string) (r : option Pipeline)
  | Created_begin
  | Created (r : option Pipeline)
  | Deleted (pid : string) (ok : bool)
  | Run_begin (apiKey : option string) (pid : string)
  | Run_settled (pid : string) (r : option (list json))
  | Results_set (rs : list json).

Definition change (c : Change) (s : Store) : Store :=
  match c with
  | Updated pid r => updatePipeline_settle pid r s
  | Created_begin => createPipeline_begin s
  | Created r => createPipeline_settle r s
  | Deleted pid ok => deletePipeline_settle pid ok s
  | Run_begin apiKey pid => (runPipeline_begin apiKey pid s).1
  | Run_settled pid r => runPipeline_settle pid r s
  | Results_set rs => setExecutionResults rs s
  end.

(** The selected pipeline is one of the list. *)
Definition selection_listed (s : Store) : Prop :=
  match currentPipeline s with
  | Some c => c ∈ pipelines s
  | None => True
  end.

End PipelineStore.

(** ** chatStore.ts, as far as the dispatcher reaches into it *)
Module ChatStore.

Inductive Role : Type := user | assistant | system.

Record ChatMessage : Type := {
  id : string;
  role : Role;
  content : string;
  timestamp : string;
  toolsUsed : option (list string)
}.

Record Store : Type := {
  messages : list ChatMessage;
  isLoading : bool;
  error : option string
}.

Definition addMessage (m : ChatMessage) (s : Store) : Store :=
  {| messages := messages s ++ [m]; isLoading := isLoading s;
     error := error s |}.

End ChatStore.

(** ** websocketStore.ts: the message dispatcher *)
Module Dispatcher.

(** An inbound frame after [JSON.parse], read at the properties the
    dispatcher looks at. A property is [None] when it is absent (or, for
    [type], not a string, so that no [case] label is strictly equal to it). *)
Record Frame : Type := {
  type : option string;
  state : option PipelineStore.PipelineUpdate;
  workflow : option WorkflowStore.WorkflowState;
  approval : option WorkflowStore.ApprovalRequest;
  message : option string;
  response : option string;
  workflow_state : option WorkflowStore.WorkflowState
}.

(** What [JSON.parse] returned: [null], on which [const { type } = data]
    throws, or a value whose properties can be read. *)
Inductive Parsed : Type :=
  | ParsedNull
  | ParsedValue (data : Frame).

Inductive EventDetail : Type :=
  | NoDetail
  | ApprovalDetail (a : WorkflowStore.ApprovalRequest)
  | FrameDetail (data : Frame).

(** Everything the handler does besides writing to a store. *)
Inductive Effect : Type :=
  | ConsoleLog (msg : string)
  | ConsoleError (msg : string)
  | DispatchEvent (event : string) (detail : EventDetail)
  | ApiPut (r : PipelineStore.PutRequest).

(** The three stores the dispatcher can reach, and the trail of its other
    effects. *)
Record Stores : Type := {
  pipelineStore : PipelineStore.Store;
  workflowStore : WorkflowStore.Store;
  chatStore : ChatStore.Store;
  effects : list Effect
}.

Definition emit (e : Effect) (st : Stores) : Stores :=
  {| pipelineStore := pipelineStore st; workflowStore := workflowStore st;
     chatStore := chatStore st; effects := effects st ++ [e] |}.

Definition on_workflowStore (f : WorkflowStore.Store -> WorkflowStore.Store)
    (st : Stores) : Stores :=
  {| pipelineStore := pipelineStore st; workflowStore := f (workflowStore st);
     chatStore := chatStore st; effects := effects st |}.

Definition on_chatStore (f : ChatStore.Store -> ChatStore.Store)
    (st : Stores) : Stores :=
  {| pipelineStore := pipelineStore st; workflowStore := workflowStore st;
     chatStore := f (chatStore st); effects := effects st |}.

(** How a block of statements completes. A thrown exception keeps the
    writes made before it. *)
Inductive Completion (A : Type) : Type :=
  | Normal (a : A)
  | Throw (exn : string) (a : A).
Arguments Normal {A} a.
Arguments Throw {A} exn a.

Definition try_catch {A : Type} (body : Completion A)
    (handler : string -> A -> Completion A) : Completion A :=
  match body with
  | Normal a => Normal a
  | Throw exn a => handler exn a
  end.

(** [Date.now()] and [new Date().toISOString()] read at the same instant. *)
Record Clock : Type := {
  now : Z;
  toISOString : string
}.

(** [if (data.response)]: a missing and an empty string are both falsy. *)
Definition truthy (s : option string) : option string :=
  match s with
  | Some v => if decide (v = "") then None else Some v
  | None => None
  end.

(** The body of [handleWebSocketMessage] once [type] has been read. *)
Definition dispatch (clock : Clock) (data : Frame) (st : Stores) : Stores :=
  if decide (type data = Some "state_update") then
    match state data, PipelineStore.currentPipeline (pipelineStore st) with
    | Some upd, Some currentPipeline =>
        emit (ApiPut (PipelineStore.updatePipeline_begin
                        (PipelineStore.id currentPipeline) upd)) st
    | _, _ => st
    end
  else if decide (type data = Some "workflow_update") then
    match workflow data with
    | Some w => on_workflowStore (WorkflowStore.setWorkflow w) st
    | None => st
    end
  else if decide (type data = Some "workflow_state") then
    emit (DispatchEvent "workflow-state-received" NoDetail)
      match workflow data with
      | Some w => on_workflowStore (WorkflowStore.setWorkflow w) st
      | None => st
      end
  else if decide (type data = Some "approval_request") then
    match approval data with
    | Some a => emit (DispatchEvent "approval-request" (ApprovalDetail a)) st
    | None => st
    end
  else if decide (type data = Some "execution_update") then
    emit (ConsoleLog "Execution update:") st
  else if decide (type data = Some "error") then
    emit (DispatchEvent "websocket-error" (FrameDetail data))
      (emit (ConsoleError "WebSocket error:") st)
  else if decide (type data = Some "response") then
    let st1 :=
      match truthy (response data) with
      | Some text =>
          on_chatStore
            (ChatStore.addMessage
               {| ChatStore.id := pretty (now clock);
                  ChatStore.role := ChatStore.assistant;
                  ChatStore.content := text;
                  ChatStore.timestamp := toISOString clock;
                  ChatStore.toolsUsed := None |}) st
      | None => st
      end in
    match workflow_state data with
    | Some w => on_workflowStore (WorkflowStore.setWorkflow w) st1
    | None => st1
    end
  else
    emit (ConsoleLog "Unknown WebSocket message type:") st.

Definition handleWebSocketMessage (clock : Clock) (data : Parsed)
    (st : Stores) : Completion Stores :=
  match data with
  | ParsedNull => Throw "TypeError" st
  | ParsedValue frame => Normal (dispatch clock frame st)
  end.

(** The discriminants that have a [case] of their own. *)
Definition recognized : list string :=
  ["state_update"; "workflow_update"; "workflow_state"; "approval_request";
   "execution_update"; "error"; "response"].

Section Onmessage.
(** [JSON.parse] is the platform's; [None] is a [SyntaxError]. *)
Variable JSON_parse : string -> option Parsed.

(** [websocket.onmessage] *)
Definition onmessage (clock : Clock) (raw : string) (st : Stores)
    : Completion Stores :=
  try_catch
    (match JSON_parse raw with
     | Some data => handleWebSocketMessage clock data st
     | None => Throw "SyntaxError" st
     end)
    (fun _ st' =>
       Normal (emit (ConsoleError "Failed to parse WebSocket message:") st')).
End Onmessage.

(** Where a completed block leaves the stores. *)
Definition outcome {A : Type} (c : Completion A) : A :=
  match c with
  | Normal a => a
  | Throw _ a => a
  end.

End Dispatcher.

(** ** websocketStore.ts: the transport manager *)
Module WebSocketStore.
Import Dispatcher.

Inductive ConnectionStatus : Type := connecting | connected | disconnected.

#[global] Instance ConnectionStatus_eq_dec : EqDecision ConnectionStatus.
Proof. solve_decision. Defined.

(** [WebSocket.readyState] *)
Inductive ReadyState : Type := CONNECTING | OPEN | CLOSING | CLOSED.

#[global] Instance ReadyState_eq_dec : EqDecision ReadyState.
Proof. solve_decision. Defined.

(** A socket made by [new WebSocket(`${wsUrl}/ws/${pipelineId}`)]. Its four
    handlers are the closures of the [connect] call that made it, so they
    are determined by [pipelineId] and by the socket's own handle. *)
Record WebSocket : Type := {
  pipelineId : string;
  readyState : ReadyState
}.

(** A pending [setTimeout]: the callback reconnects to [timer_pipelineId]. *)
Record Timer : Type := {
  timer_pipelineId : string;
  delay : Z
}.

(** Frames the front end sends. *)
Inductive Outbound : Type :=
  | StateRequest
  | Approval (approval_id : string) (approved : bool) (reason : option string)
  | OtherData (data : json).

(** The state half of [WebSocketState]; [ws] holds the handle of a socket. *)
Record State : Type := {
  ws : option nat;
  connectionStatus : ConnectionStatus;
  reconnectAttempts : nat
}.

(** The store together with what it acts on: every socket made so far
    (a handle is a position in [sockets]), the timers not yet fired, each
    invocation of a socket's own [send], and the stores behind the
    dispatcher. *)
Record World : Type := {
  store : State;
  sockets : list WebSocket;
  timers : list Timer;
  send_calls : list (nat * Outbound);
  stores : Stores
}.

Definition initial_state : State :=
  {| ws := None; connectionStatus := disconnected; reconnectAttempts := 0 |}.

Definition on_store (f : State -> State) (w : World) : World :=
  {| store := f (store w); sockets := sockets w; timers := timers w;
     send_calls := send_calls w; stores := stores w |}.

Definition on_sockets (f : list WebSocket -> list WebSocket) (w : World) : World :=
  {| store := store w; sockets := f (sockets w); timers := timers w;
     send_calls := send_calls w; stores := stores w |}.

Definition on_timers (f : list Timer -> list Timer) (w : World) : World :=
  {| store := store w; sockets := sockets w; timers := f (timers w);
     send_calls := send_calls w; stores := stores w |}.

Definition on_stores (f : Stores -> Stores) (w : World) : World :=
  {| store := store w; sockets := sockets w; timers := timers w;
     send_calls := send_calls w; stores := f (stores w) |}.

Definition set_ws (h : option nat) (s : State) : State :=
  {| ws := h; connectionStatus := connectionStatus s;
     reconnectAttempts := reconnectAttempts s |}.

Definition set_connectionStatus (c : ConnectionStatus) (s : State) : State :=
  {| ws := ws s; connectionStatus := c;
     reconnectAttempts := reconnectAttempts s |}.

Definition set_reconnectAttempts (n : nat) (s : State) : State :=
  {| ws := ws s; connectionStatus := connectionStatus s;
     reconnectAttempts := n |}.

Definition set_readyState (r : ReadyState) (k : WebSocket) : WebSocket :=
  {| pipelineId := pipelineId k; readyState := r |}.

(** *** The platform's side of a socket *)

(** [socket.close()]: starts the closing handshake unless the socket is
    already closing or closed; the close event comes later. *)
Definition socket_close (h : nat) (w : World) : World :=
  on_sockets
    (alter (fun k => match readyState k with
                     | CONNECTING | OPEN => set_readyState CLOSING k
                     | CLOSING | CLOSED => k
                     end) h) w.

(** [socket.send(payload)]: throws while the socket is still connecting. *)
Definition socket_send (h : nat) (payload : Outbound) (w : World)
    : Completion World :=
  let w' := {| store := store w; sockets := sockets w; timers := timers w;
               send_calls := send_calls w ++ [(h, payload)];
               stores := stores w |} in
  match readyState <$> sockets w !! h with
  | Some CONNECTING => Throw "InvalidStateError" w'
  | _ => Normal w'
  end.

(** *** Actions of the store *)

Definition disconnect (w : World) : World :=
  match ws (store w) with
  | Some h =>
      on_store (fun s => set_connectionStatus disconnected (set_ws None s))
        (socket_close h w)
  | None => w
  end.

(** [connect]: the new socket is made but [ws] is only set by its [onopen]. *)
Definition connect (pid : string) (w : World) : World :=
  let w1 := match ws (store w) with
            | Some _ => disconnect w
            | None => w
            end in
  let w2 := on_store (set_connectionStatus connecting) w1 in
  on_sockets (fun l => l ++ [{| pipelineId := pid; readyState := CONNECTING |}]) w2.

Definition send (payload : Outbound) (w : World) : Completion World :=
  match ws (store w), connectionStatus (store w) with
  | Some h, connected => socket_send h payload w
  | _, _ => Normal w
  end.

(** *** Handlers installed by [connect] *)

(** [Math.min(1000 * Math.pow(2, reconnectAttempts), 10000)] *)
Definition reconnect_delay (attempts : nat) : Z :=
  Z.min (1000 * 2 ^ Z.of_nat attempts) 10000.

Definition onopen (h : nat) (w : World) : World :=
  on_store (fun _ => {| ws := Some h; connectionStatus := connected;
                        reconnectAttempts := 0 |}) w.

Definition onclose (pid : string) (w : World) : World :=
  let w1 := on_store (set_connectionStatus disconnected) w in
  let attempts := reconnectAttempts (store w1) in
  if decide (attempts < 5)%nat then
    on_timers (fun l => l ++ [{| timer_pipelineId := pid;
                                 delay := reconnect_delay attempts |}]) w1
  else w1.

(** The callback handed to [setTimeout]. *)
Definition reconnect (pid : string) (w : World) : World :=
  connect pid
    (on_store (fun s => set_reconnectAttempts (reconnectAttempts s + 1) s) w).

Definition onerror (w : World) : World :=
  on_stores (emit (ConsoleError "WebSocket error:")) w.

(** *** The event loop *)

Inductive Event : Type :=
  | Call_connect (pid : string)
  | Call_disconnect
  | Call_send (payload : Outbound)
  | Socket_open (h : nat)
  | Socket_message (h : nat) (clock : Clock) (raw : string)
  | Socket_error (h : nat)
  | Socket_close (h : nat)
  | Timer_fires (k : nat).

Section Loop.
Variable JSON_parse : string -> option Parsed.

(** One turn of the event loop; [None] when the platform cannot deliver
    the event in this world (no such socket or timer, or a socket in the
    wrong [readyState]). *)
Definition step (e : Event) (w : World) : option World :=
  match e with
  | Call_connect pid => Some (connect pid w)
  | Call_disconnect => Some (disconnect w)
  | Call_send payload => Some (outcome (send payload w))
  | Socket_open h =>
      k ← sockets w !! h;
      match readyState k with
      | CONNECTING =>
          Some (onopen h (on_sockets (alter (set_readyState OPEN) h) w))
      | _ => None
      end
  | Socket_message h clock raw =>
      k ← sockets w !! h;
      match readyState k with
      | OPEN => Some (on_stores (fun st => outcome (onmessage JSON_parse clock raw st)) w)
      | _ => None
      end
  | Socket_error h =>
      _ ← sockets w !! h;
      Some (onerror w)
  | Socket_close h =>
      k ← sockets w !! h;
      match readyState k with
      | CLOSED => None
      | _ =>
          Some (onclose (pipelineId k)
                  (on_sockets (alter (set_readyState CLOSED) h) w))
      end
  | Timer_fires k =>
      t ← timers w !! k;
      Some (reconnect (timer_pipelineId t) (on_timers (delete k) w))
  end.

Fixpoint run (trace : list Event) (w : World) : option World :=
  match trace with
  | [] => Some w
  | e :: rest => w' ← step e w; run rest w'
  end.
End Loop.

(** The status is [connected] only while [ws] holds an open socket. *)
Definition connected_means_open (w : World) : Prop :=
  connectionStatus (store w) = connected ->
  exists h k, ws (store w) = Some h /\ sockets w !! h = Some k /\
              readyState k = OPEN.

End WebSocketStore.

(** ** Inbound state updates, over both channels *)
Module Inbound.
Import Dispatcher.

(** A state update reaches the workflow store as a push frame through the
    dispatcher or as the resolved response of one of its own requests. *)
Inductive Update : Type :=
  | PushFrame (clock : Clock) (data : Frame)
  | Response (c : WorkflowStore.Call) (workflow : WorkflowStore.WorkflowState).

(** The snapshot an update hands to the workflow store. *)
Definition carried (u : Update) : option WorkflowStore.WorkflowState :=
  match u with
  | PushFrame _ data =>
      if decide (type data = Some "workflow_update") then workflow data
      else if decide (type data = Some "workflow_state") then workflow data
      else if decide (type data = Some "response") then workflow_state data
      else None
  | Response _ workflow => Some workflow
  end.

Definition apply (u : Update) (st : Stores) : Stores :=
  match u with
  | PushFrame clock data => dispatch clock data st
  | Response c workflow =>
      on_workflowStore
        (WorkflowStore.settle_of c (WorkflowStore.Resolved workflow)) st
  end.

(** The snapshot the workflow store holds. *)
Definition snapshot (st : Stores) : option WorkflowStore.WorkflowState :=
  WorkflowStore.currentWorkflow (workflowStore st).

End Inbound.

(** ** WorkflowSidebar.tsx: the phase list and the status derivation *)
Module WorkflowSidebar.

Inductive Status : Type := pending | active | completed | error.

(** A row of the sidebar; the [icon] glyph is left out. *)
Record WorkflowPhase : Type := {
  id : string;
  label : string;
  description : string;
  status : Status
}.

(** The component's own view of a workflow: [phase] is a plain string. *)
Record WorkflowState : Type := {
  pipeline_id : string;
  phase : string;
  urls : list json;
  schema_fields : list json;
  generated_code : string;
  pending_approvals : list json;
  phase_transitions : list json;
  updated_at : string
}.

Definition phases : list WorkflowPhase := [
  {| id := "initial"; label := "Start";
     description := "Initialize pipeline"; status := pending |};
  {| id := "url_collection"; label := "Collect URLs";
     description := "Find or add URLs to scrape"; status := pending |};
  {| id := "url_validation"; label := "Validate URLs";
     description := "Check URL relevance"; status := pending |};
  {| id := "schema_definition"; label := "Define Schema";
     description := "Specify data to extract"; status := pending |};
  {| id := "schema_validation"; label := "Validate Schema";
     description := "Verify schema completeness"; status := pending |};
  {| id := "code_generation"; label := "Generate Code";
     description := "Create scraping script"; status := pending |};
  {| id := "ready_to_execute"; label := "Ready";
     description := "Review and approve"; status := pending |};
  {| id := "executing"; label := "Execute";
     description := "Run the pipeline"; status := pending |};
  {| id := "completed"; label := "Complete";
     description := "Pipeline finished"; status := pending |}
].

(** [Array.prototype.indexOf]: the first position holding [x], or -1. *)
Fixpoint indexOf (l : list string) (x : string) : Z :=
  match l with
  | [] => -1
  | y :: rest =>
      if decide (y = x) then 0
      else let i := indexOf rest x in
           if decide (i = -1)%Z then -1 else (i + 1)%Z
  end.

Definition getPhaseStatus (workflowState : option WorkflowState)
    (phaseId : string) : Status :=
  match workflowState with
  | None => pending
  | Some w =>
      let phaseOrder := id <$> phases in
      let currentIndex := indexOf phaseOrder (phase w) in
      let targetIndex := indexOf phaseOrder phaseId in
      if decide (phase w = "error") then error
      else if decide (targetIndex < currentIndex)%Z then completed
      else if decide (targetIndex = currentIndex) then active
      else pending
  end.

End WorkflowSidebar.

(** ** ApprovalManager.tsx: the dual submission of a decision *)
Module ApprovalManager.
Import Dispatcher WebSocketStore.

(** The component's [currentApproval] state next to the stores it uses. *)
Record Component : Type := {
  world : World;
  currentApproval : option WorkflowStore.ApprovalRequest
}.

(** The common shape of [handleApprove] and [handleReject] up to the
    [await]: the frame goes out over the socket first, then the request
    over the API. When [approveAction] returns without a request the rest of
    the handler runs at once. *)
Definition submit_begin (approved : bool) (approvalId : string)
    (reason : option string) (c : Component)
    : Completion (Component * option WorkflowStore.Request) :=
  match send (Approval approvalId approved reason) (world c) with
  | Throw exn w' =>
      Throw exn ({| world := w'; currentApproval := currentApproval c |}, None)
  | Normal w' =>
      let '(s', req) :=
        WorkflowStore.approveAction_begin approvalId approved reason
          (workflowStore (stores w')) in
      Normal ({| world := on_stores (on_workflowStore (fun _ => s')) w';
                 currentApproval := match req with
                                    | Some _ => currentApproval c
                                    | None => None
                                    end |}, req)
  end.

(** After the [await]: the store settles, then [setCurrentApproval(null)]. *)
Definition submit_settle
    (r : WorkflowStore.Settled WorkflowStore.WorkflowState) (c : Component)
    : Component :=
  {| world := on_stores
                (on_workflowStore (WorkflowStore.approveAction_settle r))
                (world c);
     currentApproval := None |}.

Definition handleApprove_begin := submit_begin true.
Definition handleReject_begin := submit_begin false.

Definition handleClose (c : Component) : Component :=
  {| world := world c; currentApproval := None |}.

End ApprovalManager.

(** ** The approval coordinator behind both channels *)
Module ApprovalCoordinator.
Import WorkflowStore.

Inductive Channel : Type := Push | RequestResponse.

(** One resolution as it reaches the coordinator: the push frame
    [{ type: "approval", approval_id, approved, reason? }] or the request
    body [{ approval_id, approved, reason? }], and the time it is handled. *)
Record Resolution : Type := {
  via : Channel;
  approval_id : string;
  approved : bool;
  reason : option string;
  handled_at : string
}.

Definition of_frame (f : WebSocketStore.Outbound) (t : string)
    : option Resolution :=
  match f with
  | WebSocketStore.Approval a b r =>
      Some {| via := Push; approval_id := a; approved := b; reason := r;
              handled_at := t |}
  | _ => None
  end.

Definition of_request (r : Request) (t : string) : option Resolution :=
  match body r with
  | BodyApprove a b why =>
      Some {| via := RequestResponse; approval_id := a; approved := b;
              reason := why; handled_at := t |}
  | _ => None
  end.

Definition with_status (st : ApprovalStatus) (a : ApprovalRequest)
    : ApprovalRequest :=
  {| id := id a; approval_phase := approval_phase a; action := action a;
     data := data a; approval_created_at := approval_created_at a;
     expires_at := expires_at a; status := st |}.

Definition with_approvals (pend hist : list ApprovalRequest) (v : Z)
    (w : WorkflowState) : WorkflowState :=
  {| pipeline_id := pipeline_id w; phase := phase w; urls := urls w;
     urls_validated := urls_validated w; schema_fields := schema_fields w;
     schema_validated := schema_validated w;
     generated_code := generated_code w; code_validated := code_validated w;
     execution_results := execution_results w;
     execution_status := execution_status w;
     pending_approvals := pend;
     approval_history := hist;
     phase_transitions := phase_transitions w;
     user_modifications := user_modifications w;
     created_at := created_at w; updated_at := updated_at w;
     created_by := created_by w; last_modified_by := last_modified_by w;
     version := v |}.

Definition has_id (a : string) (x : ApprovalRequest) : bool :=
  bool_decide (id x = a).

(** The status recorded in [approval_history] for an id, if any. *)
Definition recorded (a : string) (w : WorkflowState) : option ApprovalStatus :=
  status <$> find (has_id a) (approval_history w).

Section Resolve.
(** [elapsed e t]: the instant [e] is no later than the instant [t]. *)
Variable elapsed : string -> string -> bool.

Definition is_expired (t : string) (x : ApprovalRequest) : bool :=
  match expires_at x with
  | Some e => elapsed e t
  | None => false
  end.

(** Modelled from the spec: the coordinator's [resolve], which runs on the
    server and is not among the sources. Section 4.4: it is the only way
    an approval leaves the pending set; a call for an id whose outcome is
    already recorded is a no-op that returns the recorded outcome, without
    appending to the history again and without an error; an approval
    whose [expiresAt] has elapsed is marked expired and moved to the
    history on the next touch, and later calls for it are no-ops. Section
    3: an accepted mutation bumps [version]. A call for an id that is
    neither pending nor recorded finds nothing to resolve. *)
Definition resolve (t : string) (approvalId : string) (ok : bool)
    (why : option string) (w : WorkflowState)
    : WorkflowState * option ApprovalStatus :=
  match recorded approvalId w with
  | Some st => (w, Some st)
  | None =>
      match find (has_id approvalId) (pending_approvals w) with
      | None => (w, None)
      | Some x =>
          let st := if is_expired t x then expired
                    else if ok then WorkflowStore.approved else rejected in
          (with_approvals
             (filter (fun y => id y <> approvalId) (pending_approvals w))
             (approval_history w ++ [with_status st x])
             (version w + 1) w,
           Some st)
      end
  end.

(** Modelled from the spec: both channels end in the same [resolve]
    (section 4.4: resolution is keyed by approval id, not by channel). *)
Definition handle (r : Resolution) (w : WorkflowState) : WorkflowState :=
  fst (resolve (handled_at r) (approval_id r) (approved r) (reason r) w).

Definition handle_all (rs : list Resolution) (w : WorkflowState)
    : WorkflowState :=
  foldl (fun acc r => handle r acc) w rs.
End Resolve.

(** The history entries of an id. *)
Definition entries (a : string) (w : WorkflowState) : list ApprovalRequest :=
  filter (fun y => id y = a) (approval_history w).

Definition is_pending (a : string) (w : WorkflowState) : Prop :=
  exists x, x ∈ pending_approvals w /\ id x = a.

(** An id is resolved as [st]: that status is recorded for it, the history
    has one entry for it, and it is pending no more. *)
Definition resolved_as (a : string) (st : ApprovalStatus) (w : WorkflowState)
    : Prop :=
  recorded a w = Some st /\ length (entries a w) = 1 /\ ~ is_pending a w.

End ApprovalCoordinator.

(** ** Concrete states used in the examples below *)
Module Samples.
Import WorkflowStore.

Definition workflow_at (p : WorkflowPhase) (log : list WorkflowTransition)
    (v : Z) : WorkflowState :=
  {| pipeline_id := "p1"; phase := p; urls := []; urls_validated := false;
     schema_fields := []; schema_validated := false; generated_code := "";
     code_validated := false; execution_results := [];
     execution_status := None; pending_approvals := [];
     approval_history := []; phase_transitions := log;
     user_modifications := [];
     created_at := "2025-01-01T00:00:00Z";
     updated_at := "2025-01-01T00:00:00Z";
     created_by := "user"; last_modified_by := "user"; version := v |}.

Definition to_url_collection : WorkflowTransition :=
  {| from_phase := INITIAL; to_phase := URL_COLLECTION;
     timestamp := "2025-01-01T00:00:01Z"; reason := None;
     triggered_by := "agent" |}.

(** A freshly created workflow, version 1. *)
Definition fresh : WorkflowState := workflow_at INITIAL [] 1.

(** The same workflow one transition later, version 5. *)
Definition newer : WorkflowState :=
  workflow_at URL_COLLECTION [to_url_collection] 5.

(** An older snapshot of it, version 3, still in the initial phase. *)
Definition older : WorkflowState := workflow_at INITIAL [] 3.

Definition holding (w : WorkflowState) : Store :=
  {| currentWorkflow := Some w; workflowHistory := phase_transitions w;
     pendingApprovals := pending_approvals w; isProcessing := false;
     error := None |}.

Definition stores_holding (w : WorkflowState) : Dispatcher.Stores :=
  {| Dispatcher.pipelineStore :=
       {| PipelineStore.pipelines := []; PipelineStore.currentPipeline := None;
          PipelineStore.executionResults := [];
          PipelineStore.isLoading := false |};
     Dispatcher.workflowStore := holding w;
     Dispatcher.chatStore :=
       {| ChatStore.messages := []; ChatStore.isLoading := false;
          ChatStore.error := None |};
     Dispatcher.effects := [] |}.

Definition empty_stores : Dispatcher.Stores :=
  {| Dispatcher.pipelineStore :=
       {| PipelineStore.pipelines := []; PipelineStore.currentPipeline := None;
          PipelineStore.executionResults := [];
          PipelineStore.isLoading := false |};
     Dispatcher.workflowStore := WorkflowStore.initial;
     Dispatcher.chatStore :=
       {| ChatStore.messages := []; ChatStore.isLoading := false;
          ChatStore.error := None |};
     Dispatcher.effects := [] |}.

(** The application right after start-up: no socket, no timer. *)
Definition initial_world : WebSocketStore.World :=
  {| WebSocketStore.store := WebSocketStore.initial_state;
     WebSocketStore.sockets := []; WebSocketStore.timers := [];
     WebSocketStore.send_calls := []; WebSocketStore.stores := empty_stores |}.

Definition noon : Dispatcher.Clock :=
  {| Dispatcher.now := 1735732800000;
     Dispatcher.toISOString := "2025-01-01T12:00:00.000Z" |}.

(** A [workflow_update] push frame carrying [w]. *)
Definition workflow_update (w : WorkflowState) : Dispatcher.Frame :=
  {| Dispatcher.type := Some "workflow_update"; Dispatcher.state := None;
     Dispatcher.workflow := Some w; Dispatcher.approval := None;
     Dispatcher.message := None; Dispatcher.response := None;
     Dispatcher.workflow_state := None |}.

(** A frame with a discriminant no [case] matches. *)
Definition heartbeat : Dispatcher.Frame :=
  {| Dispatcher.type := Some "heartbeat"; Dispatcher.state := None;
     Dispatcher.workflow := Some newer; Dispatcher.approval := None;
     Dispatcher.message := None; Dispatcher.response := Some "hello";
     Dispatcher.workflow_state := Some newer |}.

(** [n] connection failures in a row: the socket with handle [first]
    closes, the one timer pending fires and makes the next socket. *)
Fixpoint failures (n : nat) (first : nat) : list WebSocketStore.Event :=
  match n with
  | O => []
  | S n' =>
      WebSocketStore.Socket_close first :: WebSocketStore.Timer_fires 0
        :: failures n' (S first)
  end.

(** The timers pending once [connect] has been followed by [n] such
    failures and the close of the socket made last. *)
Definition pending_after_failures (n : nat)
    : option (list WebSocketStore.Timer) :=
  WebSocketStore.timers <$>
    WebSocketStore.run (fun _ => None)
      (WebSocketStore.Call_connect "p1" :: failures n 0
         ++ [WebSocketStore.Socket_close n])
      initial_world.

Definition retry_in (ms : Z) : WebSocketStore.Timer :=
  {| WebSocketStore.timer_pipelineId := "p1"; WebSocketStore.delay := ms |}.

(** An approval waiting for a decision, and one whose deadline has passed. *)
Definition approval_A1 : ApprovalRequest :=
  {| id := "A1"; approval_phase := READY_TO_EXECUTE;
     action := "execute_pipeline"; data := JNull;
     approval_created_at := "2025-01-01T00:00:02.000Z"; expires_at := None;
     status := pending |}.

Definition approval_A2 : ApprovalRequest :=
  {| id := "A2"; approval_phase := READY_TO_EXECUTE;
     action := "execute_pipeline"; data := JNull;
     approval_created_at := "2025-01-01T00:00:00.000Z";
     expires_at := Some "2025-01-01T00:00:01.000Z"; status := pending |}.

Definition awaiting (x : ApprovalRequest) : WorkflowState :=
  ApprovalCoordinator.with_approvals [x] [] 5 newer.

(** Approved over the push channel, then rejected 50 ms later over the API. *)
Definition push_then_request (a : string)
    : list ApprovalCoordinator.Resolution :=
  [ {| ApprovalCoordinator.via := ApprovalCoordinator.Push;
       ApprovalCoordinator.approval_id := a;
       ApprovalCoordinator.approved := true;
       ApprovalCoordinator.reason := None;
       ApprovalCoordinator.handled_at := "2025-01-01T00:00:03.000Z" |};
    {| ApprovalCoordinator.via := ApprovalCoordinator.RequestResponse;
       ApprovalCoordinator.approval_id := a;
       ApprovalCoordinator.approved := false;
       ApprovalCoordinator.reason := None;
       ApprovalCoordinator.handled_at := "2025-01-01T00:00:03.050Z" |} ].

(** ISO timestamps of one format and zone compare as strings. *)
Definition iso_elapsed (e t : string) : bool := String.leb e t.

End Samples.

(** ** Reconnection left to itself *)
Module Retry.
Import WebSocketStore.

(** Sockets that have not delivered their close event yet. *)
Definition unclosed (l : list WebSocket) : nat :=
  length (filter (fun k => readyState k <> CLOSED) l).

(** Events of the platform other than a successful open: nobody calls the
    store and no connection is established. *)
Definition unattended (e : Event) : bool :=
  match e with
  | Socket_message _ _ _ | Socket_error _ | Socket_close _ | Timer_fires _ =>
      true
  | Call_connect _ | Call_disconnect | Call_send _ | Socket_open _ => false
  end.

(** How many reconnection timers fire in a trace. *)
Fixpoint firings (trace : list Event) : nat :=
  match trace with
  | [] => 0
  | Timer_fires _ :: rest => S (firings rest)
  | _ :: rest => firings rest
  end.

(** The reconnections a world can still make on its own: the timers
    pending, and while the counter is below 5 one for each unclosed socket
    and one for each step the counter is short of 4. *)
Definition budget (w : World) : nat :=
  length (timers w) +
  (if decide (reconnectAttempts (store w) < 5)
   then unclosed (sockets w) + (4 - reconnectAttempts (store w))
   else 0).

End Retry.

(** ** chatStore.ts: sending a message *)
Module ChatActions.
Import Dispatcher.

(** [response.data] of [api.post('/chat/message', ...)]; a property that is
    absent or [null] is [None]. *)
Record ChatResponse : Type := {
  response : string;
  tools_used : option (list string);
  urls : option (list string);
  schema : option json;
  code : option string;
  results : option (list json)
}.

Record ChatRequest : Type := {
  message : string;
  pipeline_id : string;
  context_urls : list string;
  context_schema : json;
  context_code : string
}.

(** What [uuidv4()] and [new Date().toISOString()] return for one message. *)
Record Stamp : Type := {
  uuid : string;
  at_time : string
}.

Definition setLoading (b : bool) (c : ChatStore.Store) : ChatStore.Store :=
  {| ChatStore.messages := ChatStore.messages c; ChatStore.isLoading := b;
     ChatStore.error := ChatStore.error c |}.

Definition setError (e : option string) (c : ChatStore.Store) : ChatStore.Store :=
  {| ChatStore.messages := ChatStore.messages c;
     ChatStore.isLoading := ChatStore.isLoading c; ChatStore.error := e |}.

Definition clearMessages (c : ChatStore.Store) : ChatStore.Store :=
  {| ChatStore.messages := []; ChatStore.isLoading := ChatStore.isLoading c;
     ChatStore.error := None |}.

Definition on_pipelineStore (f : PipelineStore.Store -> PipelineStore.Store)
    (st : Stores) : Stores :=
  {| pipelineStore := f (pipelineStore st); workflowStore := workflowStore st;
     chatStore := chatStore st; effects := effects st |}.

Definition say (who : ChatStore.Role) (stamp : Stamp) (text : string)
    (tools : option (list string)) : ChatStore.ChatMessage :=
  {| ChatStore.id := uuid stamp; ChatStore.role := who;
     ChatStore.content := text; ChatStore.timestamp := at_time stamp;
     ChatStore.toolsUsed := tools |}.

(** [sendMessage] up to its [await]: the user's message is shown, the store
    is marked loading, the old error is cleared, and the request takes its
    context from the selected pipeline. *)
Definition sendMessage_begin (stamp : Stamp) (content pipelineId : string)
    (st : Stores) : Stores * ChatRequest :=
  let st1 :=
    on_chatStore
      (fun c => setError None
                  (setLoading true
                     (ChatStore.addMessage
                        (say ChatStore.user stamp content None) c))) st in
  let current := PipelineStore.currentPipeline (pipelineStore st1) in
  (st1,
   {| message := content; pipeline_id := pipelineId;
      context_urls := from_option PipelineStore.urls [] current;
      context_schema :=
        match current with
        | Some c => if PipelineStore.json_truthy (PipelineStore.schema c)
                    then PipelineStore.schema c else JObj []
        | None => JObj []
        end;
      context_code :=
        match current with
        | Some c => PipelineStore.code c
        | None => ""
        end |}).

(** [response.data.urls || response.data.schema || response.data.code]: an
    array is truthy even when empty. *)
Definition wants_update (d : ChatResponse) : bool :=
  match urls d, schema d, code d with
  | Some _, _, _ => true
  | None, Some j, _ =>
      PipelineStore.json_truthy j || bool_decide (from_option id "" (code d) <> "")
  | None, None, Some c => bool_decide (c <> "")
  | None, None, None => false
  end.

(** [sendMessage] after its [await]. *)
Definition sendMessage_settle (stamp : Stamp) (pipelineId : string)
    (r : WorkflowStore.Settled ChatResponse) (st : Stores) : Stores :=
  on_chatStore (setLoading false)
    match r with
    | WorkflowStore.Resolved d =>
        let st1 :=
          on_chatStore
            (ChatStore.addMessage
               (say ChatStore.assistant stamp (response d) (tools_used d))) st in
        let st2 :=
          if wants_update d then
            emit (ApiPut (PipelineStore.updatePipeline_begin pipelineId
                            {| PipelineStore.new_name := None;
                               PipelineStore.new_description := None;
                               PipelineStore.new_urls := urls d;
                               PipelineStore.new_schema := schema d;
                               PipelineStore.new_code := code d |})) st1
          else st1 in
        match results d with
        | Some (r0 :: rest) =>
            on_pipelineStore
              (PipelineStore.setExecutionResults (r0 :: rest)) st2
        | _ => st2
        end
    | WorkflowStore.Rejected detail =>
        on_chatStore
          (fun c =>
             ChatStore.addMessage
               (say ChatStore.assistant stamp
                  "Sorry, I encountered an error processing your request. Please try again."
                  None)
               (setError (Some (or_default detail "Failed to send message")) c))
          st
    end.

End ChatActions.

(** ** More concrete states *)
Module MoreSamples.

Definition pipeline (pid : string) (st : PipelineStore.PipelineStatus)
    : PipelineStore.Pipeline :=
  {| PipelineStore.id := pid; PipelineStore.name := "Pipeline " +:+ pid;
     PipelineStore.description := None; PipelineStore.urls := [];
     PipelineStore.schema := JObj []; PipelineStore.code := "";
     PipelineStore.generated_code := None; PipelineStore.status := st;
     PipelineStore.created_at := "2025-01-01T00:00:00Z";
     PipelineStore.updated_at := "2025-01-01T00:00:00Z";
     PipelineStore.results := None; PipelineStore.results_count := None;
     PipelineStore.last_run := None |}.

(** Two pipelines, the first selected. *)
Definition two_pipelines : PipelineStore.Store :=
  {| PipelineStore.pipelines :=
       [pipeline "p1" PipelineStore.idle; pipeline "p2" PipelineStore.idle];
     PipelineStore.currentPipeline := Some (pipeline "p1" PipelineStore.idle);
     PipelineStore.executionResults := [];
     PipelineStore.isLoading := false |}.

Definition first_stamp : ChatActions.Stamp :=
  {| ChatActions.uuid := "00000000-0000-4000-8000-000000000001";
     ChatActions.at_time := "2025-01-01T12:00:00.000Z" |}.

Definition second_stamp : ChatActions.Stamp :=
  {| ChatActions.uuid := "00000000-0000-4000-8000-000000000002";
     ChatActions.at_time := "2025-01-01T12:00:01.000Z" |}.

(** The world once [connect] has been called at start-up. *)
Definition connecting_world : WebSocketStore.World :=
  WebSocketStore.connect "p1" Samples.initial_world.

(** The approval dialog's owner at start-up. *)
Definition idle_component : ApprovalManager.Component :=
  {| ApprovalManager.world := Samples.initial_world;
     ApprovalManager.currentApproval := Some Samples.approval_A1 |}.

End MoreSamples.

(** * Properties *)

(** ** The workflow store *)
Section WorkflowStoreProperties.
Import WorkflowStore.

Lemma or_default_nonempty (a : option string) (dflt : string) :
  dflt <> "" -> or_default a dflt <> "".
Proof.
  intros Hd. unfold or_default.
  destruct a as [s|]; [destruct (decide (s = "")) as [_|Hs]|]; done.
Qed.

Lemma guarded_begin_none (endpoint : string) (b : RequestBody) (s : Store) :
  currentWorkflow s = None -> guarded_begin endpoint b s = (s, None).
Proof. intros H. unfold guarded_begin. by rewrite H. Qed.

Lemma run_async_none {A : Type} (begin : Store -> Store * option Request)
    (finish : Settled A -> Store -> Store) (r : option (Settled A)) (s : Store) :
  begin s = (s, None) -> run_async begin finish r s = s.
Proof. intros H. unfold run_async. by rewrite H. Qed.

(** C10. With no workflow loaded, each of [updateURLs], [updateSchema],
    [approveAction] and [transitionToPhase] returns at its guard: no request
    is issued and the store, [isProcessing] and [error] included, is the
    one it was called on, whatever answer might have come. *)
Theorem mutation_without_workflow_is_noop (s : Store)
    (us : list URLInfo) (fields : list SchemaField) (a : string) (b : bool)
    (why : option string) (p : WorkflowPhase)
    (r : option (Settled WorkflowState)) :
  currentWorkflow s = None ->
  (updateURLs_begin us s = (s, None) /\ updateURLs us r s = s) /\
  (updateSchema_begin fields s = (s, None) /\ updateSchema fields r s = s) /\
  (approveAction_begin a b why s = (s, None) /\ approveAction a b why r s = s) /\
  (transitionToPhase_begin p why s = (s, None) /\
   transitionToPhase p why r s = s).
Proof.
  intros Hnull.
  repeat split;
    try (by apply guarded_begin_none);
    by apply run_async_none, guarded_begin_none.
Qed.

Lemma mutation_without_workflow_is_noop_witness :
  currentWorkflow initial = None /\
  updateURLs [] (Some (Resolved Samples.newer)) initial = initial /\
  transitionToPhase EXECUTING None (Some (Rejected None)) initial = initial.
Proof.
  assert (H : currentWorkflow initial = None) by reflexivity.
  split; [exact H|].
  pose proof (mutation_without_workflow_is_noop initial [] [] "A1" true None
                EXECUTING (Some (Resolved Samples.newer)) H) as Hok.
  pose proof (mutation_without_workflow_is_noop initial [] [] "A1" true None
                EXECUTING (Some (Rejected None)) H) as Hko.
  split; [apply Hok | apply Hko].
Defined.

Lemma settle_rejected_keeps_snapshot {A : Type} (ok : A -> Store -> Store)
    (msg : string) (detail : option string) (s : Store) :
  let s' := settle ok msg (Rejected detail) s in
  currentWorkflow s' = currentWorkflow s /\
  workflowHistory s' = workflowHistory s /\
  pendingApprovals s' = pendingApprovals s /\
  isProcessing s' = false /\
  error s' = Some (or_default detail msg).
Proof. by cbn. Qed.

(** C6. A transition request that the server rejects leaves the held
    workflow (and the history and approvals next to it) as it was: the phase
    is not moved to any other value. The rejection is surfaced in [error] as
    a non-empty message, the server's [detail] when it gave one and
    "Failed to transition phase" otherwise. Neither half of the action
    touches the snapshot, so this also holds when other operations run
    between the request and its rejection. *)
Theorem rejected_transition_keeps_snapshot (s : Store) (w : WorkflowState)
    (p : WorkflowPhase) (why detail : option string) :
  currentWorkflow s = Some w ->
  let s' := transitionToPhase p why (Some (Rejected detail)) s in
  currentWorkflow s' = Some w /\
  workflowHistory s' = workflowHistory s /\
  pendingApprovals s' = pendingApprovals s /\
  isProcessing s' = false /\
  (exists msg, error s' = Some msg /\ msg <> "" /\
               msg = or_default detail "Failed to transition phase") /\
  currentWorkflow (fst (transitionToPhase_begin p why s)) = Some w /\
  (forall s2, currentWorkflow (transitionToPhase_settle (Rejected detail) s2)
              = currentWorkflow s2).
Proof.
  intros Hw s'. subst s'.
  unfold transitionToPhase, run_async, transitionToPhase_begin, guarded_begin.
  rewrite Hw. cbn.
  repeat split; try done.
  eexists; split; [reflexivity|].
  split; [by apply or_default_nonempty | reflexivity].
Qed.

Lemma rejected_transition_keeps_snapshot_witness :
  let s' := transitionToPhase EXECUTING None
              (Some (Rejected (Some "Invalid transition")))
              (Samples.holding Samples.newer) in
  currentWorkflow s' = Some Samples.newer /\
  error s' = Some "Invalid transition".
Proof.
  pose proof (rejected_transition_keeps_snapshot
                (Samples.holding Samples.newer) Samples.newer EXECUTING None
                (Some "Invalid transition") eq_refl) as H.
  cbv zeta in H. destruct H as (Hw & _ & _ & _ & (msg & He & _ & Hm) & _).
  split; [exact Hw|]. rewrite He, Hm. reflexivity.
Defined.

End WorkflowStoreProperties.

(** ** The transitions log against the phase *)
Section PhaseConsistency.
Import WorkflowStore.

Lemma begin_of_snapshot (c : Call) (s : Store) :
  currentWorkflow (fst (begin_of c s)) = currentWorkflow s.
Proof.
  destruct c; cbn;
    unfold updateURLs_begin, updateSchema_begin, approveAction_begin,
      transitionToPhase_begin, guarded_begin;
    try (destruct (currentWorkflow s) eqn:E; cbn; congruence); done.
Qed.

Lemma settle_of_snapshot (c : Call) (r : Settled WorkflowState) (s : Store) :
  currentWorkflow (settle_of c r s) =
  match r with
  | Resolved u => Some u
  | Rejected _ => currentWorkflow s
  end.
Proof. by destruct c, r. Qed.

(** What each operation leaves in [currentWorkflow]. *)
Lemma perform_snapshot (op : Operation) (s : Store) :
  currentWorkflow (perform op s) =
  match supplied op with
  | Some u => Some u
  | None =>
      match op with
      | Op_updateWorkflowPhase p => with_phase p <$> currentWorkflow s
      | Op_addURLs us =>
          (fun w => with_urls (urls w ++ us) w) <$> currentWorkflow s
      | _ => currentWorkflow s
      end
  end.
Proof.
  destruct op as [u|p|us| |c|c r|pid|r]; cbn [perform supplied].
  - done.
  - unfold updateWorkflowPhase. cbn. by destruct (currentWorkflow s).
  - unfold addURLs. cbn. by destruct (currentWorkflow s).
  - done.
  - apply begin_of_snapshot.
  - rewrite settle_of_snapshot. by destruct r.
  - done.
  - by destruct r.
Qed.

(** The claim of C4 as the spec words it fails: [updateWorkflowPhase]
    overwrites the phase of a fresh workflow and leaves its empty log. *)
Lemma phase_overwrite_breaks_consistency :
  store_consistent (Samples.holding Samples.fresh) /\
  ~ store_consistent
      (perform (Op_updateWorkflowPhase URL_COLLECTION)
         (Samples.holding Samples.fresh)).
Proof. split; [reflexivity|]. cbn. discriminate. Qed.

(** C4, amended. Let the snapshot be consistent before an operation, and
    let any snapshot the operation receives from the server be consistent.
    Then the snapshot is consistent afterwards exactly when the operation is
    not an [updateWorkflowPhase] that names a phase other than the current
    one of a loaded workflow: that action sets [phase] and appends nothing
    to the log, and it is the only operation that can break the
    agreement. *)
Theorem consistency_after_operation (op : Operation) (s : Store) :
  store_consistent s ->
  (forall u, supplied op = Some u -> phase_consistent u) ->
  store_consistent (perform op s) <->
  (forall p w, op = Op_updateWorkflowPhase p ->
               currentWorkflow s = Some w -> p = phase w).
Proof.
  intros Hs Hu. unfold store_consistent in *.
  rewrite perform_snapshot.
  destruct (supplied op) as [u|] eqn:Hsup.
  - split; [|by intros _; apply Hu].
    intros _ p w ->. discriminate.
  - destruct op as [u|p|us| |c|c r|pid|r]; try discriminate;
      try (split; [by intros _ p' w' [=] | by intros _]).
    + destruct (currentWorkflow s) as [w|] eqn:Hw; cbn.
      * unfold phase_consistent in *. cbn.
        destruct (last (phase_transitions w)) as [t|]; split.
        -- intros Hp p' w' [= <-] [= <-]. congruence.
        -- intros H. rewrite (H p w eq_refl eq_refl). done.
        -- intros Hp p' w' [= <-] [= <-]. congruence.
        -- intros H. rewrite (H p w eq_refl eq_refl). done.
      * split; [by intros _ p' w' _ [=] | done].
    + destruct (currentWorkflow s) as [w|] eqn:Hw; cbn;
        (split; [by intros _ p' w' [=] | by intros _]).
Qed.

Lemma consistency_after_operation_witness :
  store_consistent
    (perform (Settle (Call_transitionToPhase URL_COLLECTION None)
                (Resolved Samples.newer))
       (Samples.holding Samples.fresh)).
Proof.
  apply (consistency_after_operation
           (Settle (Call_transitionToPhase URL_COLLECTION None)
              (Resolved Samples.newer))
           (Samples.holding Samples.fresh)).
  - reflexivity.
  - intros u [= <-]. reflexivity.
  - intros p w [=].
Defined.

End PhaseConsistency.

(** ** Inbound updates and versions *)
Section VersionGate.
Import Dispatcher Inbound.

Lemma dispatch_snapshot (clock : Clock) (data : Frame) (st : Stores) :
  snapshot (dispatch clock data st) =
  match carried (PushFrame clock data) with
  | Some incoming => Some incoming
  | None => snapshot st
  end.
Proof.
  unfold dispatch, carried, snapshot.
  destruct (decide (type data = Some "state_update")) as [E|_].
  { rewrite E. cbn.
    by destruct (state data),
         (PipelineStore.currentPipeline (pipelineStore st)). }
  destruct (decide (type data = Some "workflow_update")) as [_|_].
  { by destruct (workflow data). }
  destruct (decide (type data = Some "workflow_state")) as [_|_].
  { by destruct (workflow data). }
  destruct (decide (type data = Some "approval_request")) as [E|_].
  { rewrite E. cbn. by destruct (approval data). }
  destruct (decide (type data = Some "execution_update")) as [E|_].
  { by rewrite E. }
  destruct (decide (type data = Some "error")) as [E|_].
  { by rewrite E. }
  destruct (decide (type data = Some "response")) as [_|_]; [|done].
  by destruct (workflow_state data), (truthy (response data)).
Qed.

Lemma apply_snapshot (u : Update) (st : Stores) :
  snapshot (apply u st) =
  match carried u with
  | Some incoming => Some incoming
  | None => snapshot st
  end.
Proof.
  destruct u as [clock data|c incoming].
  - apply dispatch_snapshot.
  - by destruct c.
Qed.

(** The claim of C1 as the spec words it fails: a store holding version 5
    receives a [workflow_update] frame of version 3 and ends up holding the
    version 3 snapshot. *)
Lemma stale_update_is_applied :
  let u := PushFrame Samples.noon (Samples.workflow_update Samples.older) in
  let st := Samples.stores_holding Samples.newer in
  snapshot st = Some Samples.newer /\
  carried u = Some Samples.older /\
  (WorkflowStore.version Samples.older <= WorkflowStore.version Samples.newer)%Z /\
  snapshot (apply u st) = Some Samples.older /\
  snapshot (apply u st) <> snapshot st.
Proof. cbn. repeat split; [lia | discriminate]. Qed.

(** C1, amended. No version is compared on either channel. An inbound
    update that carries a workflow snapshot (a [workflow_update] or
    [workflow_state] frame with a [workflow], a [response] frame with a
    [workflow_state], or a resolved response) makes that snapshot the held
    one, whatever the two versions are; any other frame leaves the held
    snapshot alone. So an update is a no-op on the snapshot exactly when
    it carries nothing or what is already held, and applying the same update
    a second time changes nothing. *)
Theorem inbound_update_replaces_snapshot (u : Update) (st : Stores) :
  snapshot (apply u st) =
    match carried u with
    | Some incoming => Some incoming
    | None => snapshot st
    end /\
  snapshot (apply u (apply u st)) = snapshot (apply u st).
Proof.
  split; [apply apply_snapshot|].
  rewrite !apply_snapshot. by destruct (carried u).
Qed.

End VersionGate.

(** ** The transport manager *)
Section TransportProperties.
Import Dispatcher WebSocketStore.

Variable JSON_parse : string -> option Parsed.

(** C9. Whenever the connection status is anything but [connected], [send]
    completes normally and leaves the whole world as it was: the socket's
    own [send] is not invoked (no entry joins [send_calls]), nothing is
    queued for later, and nothing is thrown. *)
Theorem send_dropped_unless_connected (payload : Outbound) (w : World) :
  connectionStatus (store w) <> connected ->
  send payload w = Normal w /\ step JSON_parse (Call_send payload) w = Some w.
Proof.
  intros Hs. cbn. unfold send.
  destruct (ws (store w)); [|done].
  by destruct (connectionStatus (store w)).
Qed.

(** Conversely a call that reaches the socket was made while connected. *)
Lemma send_reaches_socket_only_connected (payload : Outbound) (w : World) :
  send_calls (outcome (send payload w)) <> send_calls w ->
  connectionStatus (store w) = connected /\ is_Some (ws (store w)).
Proof.
  unfold send.
  destruct (ws (store w)) as [h|]; [|done].
  by destruct (connectionStatus (store w)).
Qed.

(** A [send] changes nothing but the record of calls to the socket. *)
Lemma send_only_logs (payload : Outbound) (w : World) :
  let w' := outcome (send payload w) in
  store w' = store w /\ sockets w' = sockets w /\ timers w' = timers w /\
  stores w' = stores w.
Proof.
  unfold send.
  destruct (ws (store w)) as [h|]; [|done].
  destruct (connectionStatus (store w)); try done.
  unfold socket_send.
  by destruct (readyState <$> sockets w !! h) as [[]|].
Qed.

Lemma step_connected_means_open (e : Event) (w w' : World) :
  connected_means_open w -> step JSON_parse e w = Some w' ->
  connected_means_open w'.
Proof.
  unfold connected_means_open. intros Hw Hstep.
  destruct e as [pid| |payload|h|h clock raw|h|h|k]; cbn in Hstep.
  - injection Hstep as <-. unfold connect. cbn. discriminate.
  - injection Hstep as <-. unfold disconnect.
    destruct (ws (store w)) eqn:Hws; [cbn; discriminate |].
    by rewrite <- Hws in Hw.
  - injection Hstep as <-.
    destruct (send_only_logs payload w) as (-> & -> & _). exact Hw.
  - destruct (sockets w !! h) as [s|] eqn:Hh; [|done]. cbn in Hstep.
    destruct (readyState s); try done.
    injection Hstep as <-. cbn. intros _. exists h, (set_readyState OPEN s).
    split; [done|]. split; [|done]. by rewrite list_lookup_alter_eq, Hh.
  - destruct (sockets w !! h) as [s|]; [|done]. cbn in Hstep.
    destruct (readyState s); try done. by injection Hstep as <-.
  - destruct (sockets w !! h) as [s|]; [|done]. cbn in Hstep.
    by injection Hstep as <-.
  - destruct (sockets w !! h) as [s|]; [|done]. cbn in Hstep.
    unfold onclose in Hstep.
    destruct (readyState s); try done; injection Hstep as <-;
      cbn; case_decide; cbn; discriminate.
  - destruct (timers w !! k) as [t|]; [|done]. cbn in Hstep.
    injection Hstep as <-. unfold reconnect, connect. cbn. discriminate.
Qed.

Lemma run_connected_means_open (trace : list Event) (w w' : World) :
  connected_means_open w -> run JSON_parse trace w = Some w' ->
  connected_means_open w'.
Proof.
  revert w. induction trace as [|e rest IH]; intros w Hw Hrun; cbn in Hrun.
  - by injection Hrun as <-.
  - destruct (step JSON_parse e w) as [w1|] eqn:Hstep; [|done].
    cbn in Hrun. eapply IH; [|exact Hrun].
    by eapply step_connected_means_open.
Qed.

(** In a world reached from start-up a [send] never throws, and if it
    reaches a socket that socket is open. *)
Lemma send_never_throws (trace : list Event) (payload : Outbound) (w : World) :
  run JSON_parse trace Samples.initial_world = Some w ->
  exists w', send payload w = Normal w'.
Proof.
  intros Hrun.
  assert (Hinv : connected_means_open w).
  { eapply run_connected_means_open; [|exact Hrun]. intros [=]. }
  unfold send.
  destruct (ws (store w)) as [h|] eqn:Hws; [|eauto].
  destruct (connectionStatus (store w)) eqn:Hc; eauto.
  destruct (Hinv Hc) as (h' & k & Hh & Hk & Hopen).
  rewrite Hws in Hh. injection Hh as <-.
  unfold socket_send. rewrite Hk. cbn. rewrite Hopen. eauto.
Qed.

End TransportProperties.

Lemma send_dropped_unless_connected_witness :
  WebSocketStore.send WebSocketStore.StateRequest Samples.initial_world =
  Dispatcher.Normal Samples.initial_world.
Proof.
  apply (send_dropped_unless_connected (fun _ => None)
           WebSocketStore.StateRequest Samples.initial_world).
  cbn. discriminate.
Defined.

(** ** Reconnection *)
Section Reconnection.
Import Dispatcher WebSocketStore.

Variable JSON_parse : string -> option Parsed.

Lemma reconnect_delay_mono (n m : nat) :
  n <= m -> (reconnect_delay n <= reconnect_delay m)%Z.
Proof.
  intros Hnm. unfold reconnect_delay.
  apply Z.min_le_compat_r, Z.mul_le_mono_nonneg_l; [lia|].
  apply Z.pow_le_mono_r; lia.
Qed.

Lemma reconnect_delay_ceiling (n : nat) : (reconnect_delay n <= 10000)%Z.
Proof. unfold reconnect_delay. apply Z.le_min_r. Qed.

Lemma onclose_schedules (pid : string) (w : World) :
  timers (onclose pid w) =
  if decide (reconnectAttempts (store w) < 5)
  then timers w ++ [{| timer_pipelineId := pid;
                       delay := reconnect_delay (reconnectAttempts (store w)) |}]
  else timers w.
Proof. unfold onclose. cbn. by case_decide. Qed.

(** The delays of the first five attempts. *)
Lemma reconnect_delay_table :
  reconnect_delay <$> [0; 1; 2; 3; 4] = [1000; 2000; 4000; 8000; 10000]%Z.
Proof. reflexivity. Qed.

(** The back-off scenario run on the event loop: after [connect], each of
    five failures in a row leaves one timer pending, with delays 1000, 2000,
    4000, 8000 and 10000, and the sixth close leaves none. *)
Lemma backoff_scenario :
  Samples.pending_after_failures <$> [0; 1; 2; 3; 4; 5] =
  [Some [Samples.retry_in 1000]; Some [Samples.retry_in 2000];
   Some [Samples.retry_in 4000]; Some [Samples.retry_in 8000];
   Some [Samples.retry_in 10000]; Some []].
Proof. vm_compute. reflexivity. Qed.

(** C5. The delay computed for an attempt never decreases as the attempt
    counter grows and never exceeds the ceiling of 10000 ms. A close that
    finds the counter below 5 schedules one reconnection with the delay of
    that counter; a close that finds it at 5 or more schedules nothing and
    leaves the status [disconnected]. *)
Theorem reconnect_backoff :
  (forall n m : nat, n <= m -> (reconnect_delay n <= reconnect_delay m)%Z) /\
  (forall n : nat, (reconnect_delay n <= 10000)%Z) /\
  (forall pid w, reconnectAttempts (store w) < 5 ->
     timers (onclose pid w) =
     timers w ++ [{| timer_pipelineId := pid;
                     delay := reconnect_delay (reconnectAttempts (store w)) |}]) /\
  (forall pid w, 5 <= reconnectAttempts (store w) ->
     timers (onclose pid w) = timers w /\
     connectionStatus (store (onclose pid w)) = disconnected) /\
  (forall h w w', 5 <= reconnectAttempts (store w) ->
     step JSON_parse (Socket_close h) w = Some w' -> timers w' = timers w).
Proof.
  split; [exact reconnect_delay_mono|].
  split; [exact reconnect_delay_ceiling|].
  split; [|split].
  - intros pid w Hlt. rewrite onclose_schedules. by case_decide.
  - intros pid w Hge. rewrite onclose_schedules.
    split; [case_decide; [lia|done]|].
    unfold onclose. cbn. by case_decide.
  - intros h w w' Hge Hstep. cbn in Hstep.
    destruct (sockets w !! h) as [k|]; [|done]. cbn in Hstep.
    assert (Hk : timers (onclose (pipelineId k)
                   (on_sockets (alter (set_readyState CLOSED) h) w)) = timers w).
    { rewrite onclose_schedules. cbn. case_decide; [lia|done]. }
    destruct (readyState k); try done; by injection Hstep as <-.
Qed.

(** What the claim of C3 promises and the code does not do. [disconnect]
    holds no handle on a timer and cancels none. So when the connection
    has dropped and a reconnection is pending, a [disconnect] leaves the
    timer in place, and when it fires a new socket is made although nobody
    called [connect]. And when [disconnect] closes an open socket, that
    socket's own [onclose] runs as for any other close and schedules a
    reconnection. *)
Theorem disconnect_does_not_stop_reconnection :
  (forall w, timers (disconnect w) = timers w) /\
  (exists w1 w2,
     run JSON_parse
       [Call_connect "p1"; Socket_open 0; Socket_close 0; Call_disconnect]
       Samples.initial_world = Some w1 /\
     ws (store w1) = None /\
     connectionStatus (store w1) = disconnected /\
     timers w1 = [Samples.retry_in 1000] /\
     run JSON_parse [Timer_fires 0] w1 = Some w2 /\
     sockets w2 = [{| pipelineId := "p1"; readyState := CLOSED |};
                   {| pipelineId := "p1"; readyState := CONNECTING |}] /\
     connectionStatus (store w2) = connecting) /\
  (exists w1 w2,
     run JSON_parse [Call_connect "p1"; Socket_open 0; Call_disconnect]
       Samples.initial_world = Some w1 /\
     timers w1 = [] /\
     sockets w1 = [{| pipelineId := "p1"; readyState := CLOSING |}] /\
     run JSON_parse [Socket_close 0; Timer_fires 0] w1 = Some w2 /\
     sockets w2 = [{| pipelineId := "p1"; readyState := CLOSED |};
                   {| pipelineId := "p1"; readyState := CONNECTING |}] /\
     connectionStatus (store w2) = connecting).
Proof.
  split; [|split].
  - intros w. unfold disconnect. by destruct (ws (store w)).
  - eexists _, _. by vm_compute.
  - eexists _, _. by vm_compute.
Qed.

(** What does hold of [disconnect]: with a socket in [ws] it asks that
    socket to close, clears [ws] and sets the status. *)
Lemma disconnect_tears_down (w : World) (h : nat) :
  ws (store w) = Some h ->
  ws (store (disconnect w)) = None /\
  connectionStatus (store (disconnect w)) = disconnected /\
  sockets (disconnect w) = sockets (socket_close h w).
Proof. intros H. unfold disconnect. by rewrite H. Qed.

End Reconnection.

Lemma reconnect_backoff_witness :
  (WebSocketStore.reconnect_delay 1 <= WebSocketStore.reconnect_delay 4)%Z /\
  WebSocketStore.timers
    (WebSocketStore.onclose "p1"
       (WebSocketStore.on_store (WebSocketStore.set_reconnectAttempts 5)
          Samples.initial_world)) = [].
Proof.
  destruct (reconnect_backoff (fun _ => None)) as (Hmono & _ & _ & Hcap & _).
  split.
  - apply Hmono. lia.
  - apply (Hcap "p1"
             (WebSocketStore.on_store (WebSocketStore.set_reconnectAttempts 5)
                Samples.initial_world)).
    cbn. lia.
Defined.

(** ** The dispatcher *)
Section DispatcherProperties.
Import Dispatcher.

Variable JSON_parse : string -> option Parsed.

(** A frame whose discriminant has no [case] falls through to [default]. *)
Lemma dispatch_default (clock : Clock) (data : Frame) (st : Stores) :
  (forall t, type data = Some t -> t ∉ recognized) ->
  dispatch clock data st =
  emit (ConsoleLog "Unknown WebSocket message type:") st.
Proof.
  intros Hun. unfold dispatch.
  repeat match goal with
  | |- context [decide (type data = Some ?s)] =>
      destruct (decide (type data = Some s)) as [E|_];
        [exfalso; apply (Hun s E); unfold recognized; set_solver +|]
  end.
  reflexivity.
Qed.

(** C8. A frame that [JSON.parse] rejects, a frame that parses to [null],
    and a frame whose [type] is none of the seven recognized discriminants
    are all dropped: the handler completes normally, the pipeline, workflow
    and chat stores are untouched, and the only effect is one line on the
    console. *)
Theorem malformed_frame_is_dropped (clock : Clock) (raw : string)
    (st : Stores) :
  JSON_parse raw = None \/
  JSON_parse raw = Some ParsedNull \/
  (exists data, JSON_parse raw = Some (ParsedValue data) /\
                forall t, type data = Some t -> t ∉ recognized) ->
  exists st',
    onmessage JSON_parse clock raw st = Normal st' /\
    pipelineStore st' = pipelineStore st /\
    workflowStore st' = workflowStore st /\
    chatStore st' = chatStore st /\
    exists msg, effects st' = effects st ++ [ConsoleLog msg] \/
                effects st' = effects st ++ [ConsoleError msg].
Proof.
  unfold onmessage.
  intros [-> | [-> | (data & -> & Hun)]]; cbn.
  - eexists. split; [reflexivity|]. cbn. eauto 10.
  - eexists. split; [reflexivity|]. cbn. eauto 10.
  - rewrite dispatch_default by done.
    eexists. split; [reflexivity|]. cbn. eauto 10.
Qed.

(** On the event loop a dropped frame changes nothing of the transport. *)
Lemma message_keeps_transport (h : nat) (clock : Clock) (raw : string)
    (w w' : WebSocketStore.World) :
  WebSocketStore.step JSON_parse (WebSocketStore.Socket_message h clock raw) w
    = Some w' ->
  WebSocketStore.store w' = WebSocketStore.store w /\
  WebSocketStore.sockets w' = WebSocketStore.sockets w /\
  WebSocketStore.timers w' = WebSocketStore.timers w /\
  WebSocketStore.send_calls w' = WebSocketStore.send_calls w.
Proof.
  cbn. destruct (WebSocketStore.sockets w !! h) as [k|]; [|done]. cbn.
  destruct (WebSocketStore.readyState k); try done. by intros [= <-].
Qed.

End DispatcherProperties.

Lemma malformed_frame_is_dropped_witness :
  exists st',
    Dispatcher.onmessage (fun _ => Some (Dispatcher.ParsedValue Samples.heartbeat))
      Samples.noon "{}" (Samples.stores_holding Samples.fresh)
    = Dispatcher.Normal st' /\
    Dispatcher.workflowStore st' = Samples.holding Samples.fresh.
Proof.
  destruct (malformed_frame_is_dropped
              (fun _ => Some (Dispatcher.ParsedValue Samples.heartbeat))
              Samples.noon "{}" (Samples.stores_holding Samples.fresh))
    as (st' & Hrun & _ & Hwf & _).
  - right. right. exists Samples.heartbeat. split; [reflexivity|].
    intros t [= <-]. compute_done.
  - exists st'. split; [exact Hrun | exact Hwf].
Defined.

(** ** The sidebar's status derivation *)
Section SidebarProperties.
Import WorkflowSidebar.

(** Without a snapshot every row is pending. *)
Lemma status_without_snapshot (phaseId : string) :
  getPhaseStatus None phaseId = pending.
Proof. reflexivity. Qed.

(** The ids of the phase list are distinct: each is found at its own
    position. *)
Lemma indexOf_phase (i : nat) (p : WorkflowPhase) :
  phases !! i = Some p -> indexOf (id <$> phases) (id p) = Z.of_nat i.
Proof.
  intros H.
  do 9 (destruct i as [|i]; [injection H as <-; reflexivity|]).
  discriminate.
Qed.

(** C7. For the row at position [i] of the phase list and any snapshot, the
    derived status depends on the snapshot's phase alone: it is [error]
    when that phase is "error", and otherwise [completed], [active] or
    [pending] as [i] is below, at or above the position of that phase in
    the list. *)
Theorem phase_status_by_index (w : WorkflowState) (i : nat)
    (p : WorkflowPhase) :
  phases !! i = Some p ->
  getPhaseStatus (Some w) (id p) =
    if decide (phase w = "error") then error
    else
      let currentIndex := indexOf (id <$> phases) (phase w) in
      if decide (Z.of_nat i < currentIndex)%Z then completed
      else if decide (Z.of_nat i = currentIndex) then active
      else pending.
Proof.
  intros H. unfold getPhaseStatus. cbv zeta.
  by rewrite (indexOf_phase i p H).
Qed.

(** When the snapshot's phase is itself a row of the list, the comparison
    is one of list positions. *)
Lemma phase_status_between_rows (w : WorkflowState) (i j : nat)
    (p q : WorkflowPhase) :
  phases !! i = Some p -> phases !! j = Some q -> phase w = id q ->
  getPhaseStatus (Some w) (id p) =
    if decide (i < j) then completed
    else if decide (i = j) then active else pending.
Proof.
  intros Hp Hq Hw. unfold getPhaseStatus. cbv zeta.
  rewrite (indexOf_phase i p Hp), Hw, (indexOf_phase j q Hq).
  destruct (decide (id q = "error")) as [E|_].
  { exfalso. revert E.
    do 9 (destruct j as [|j]; [injection Hq as <-; discriminate|]).
    discriminate. }
  repeat case_decide; try done; lia.
Qed.

End SidebarProperties.

Lemma phase_status_by_index_witness :
  WorkflowSidebar.getPhaseStatus
    (Some {| WorkflowSidebar.pipeline_id := "p1";
             WorkflowSidebar.phase := "schema_definition";
             WorkflowSidebar.urls := []; WorkflowSidebar.schema_fields := [];
             WorkflowSidebar.generated_code := "";
             WorkflowSidebar.pending_approvals := [];
             WorkflowSidebar.phase_transitions := [];
             WorkflowSidebar.updated_at := "2025-01-01T00:00:00Z" |})
    "url_collection" = WorkflowSidebar.completed.
Proof.
  exact (phase_status_by_index
           {| WorkflowSidebar.pipeline_id := "p1";
              WorkflowSidebar.phase := "schema_definition";
              WorkflowSidebar.urls := []; WorkflowSidebar.schema_fields := [];
              WorkflowSidebar.generated_code := "";
              WorkflowSidebar.pending_approvals := [];
              WorkflowSidebar.phase_transitions := [];
              WorkflowSidebar.updated_at := "2025-01-01T00:00:00Z" |}
           1
           {| WorkflowSidebar.id := "url_collection";
              WorkflowSidebar.label := "Collect URLs";
              WorkflowSidebar.description := "Find or add URLs to scrape";
              WorkflowSidebar.status := WorkflowSidebar.pending |}
           eq_refl).
Defined.

(** ** Resolving an approval over two channels *)
Section ApprovalProperties.
Import WorkflowStore ApprovalCoordinator.

Variable elapsed : string -> string -> bool.

Lemma find_has_id_Some (a : string) (l : list ApprovalRequest)
    (x : ApprovalRequest) :
  find (has_id a) l = Some x -> x ∈ l /\ id x = a.
Proof.
  intros H. apply find_some in H as [Hin Hb].
  split; [by apply list_elem_of_In|].
  by apply bool_decide_eq_true in Hb.
Qed.

Lemma find_has_id_None (a : string) (l : list ApprovalRequest) :
  find (has_id a) l = None <-> forall y, y ∈ l -> id y <> a.
Proof.
  split.
  - intros H y Hy Heq. apply list_elem_of_In in Hy.
    pose proof (find_none _ _ H y Hy) as Hb.
    unfold has_id in Hb. by apply bool_decide_eq_false in Hb.
  - intros H. destruct (find (has_id a) l) as [x|] eqn:E; [|done].
    apply find_has_id_Some in E as [Hin Hid]. by apply H in Hin.
Qed.

Lemma find_app_first {A : Type} (f : A -> bool) (l l' : list A) :
  find f (l ++ l') =
  match find f l with
  | Some x => Some x
  | None => find f l'
  end.
Proof.
  induction l as [|y l IH]; [done|]. cbn. by destruct (f y).
Qed.

Lemma filter_id_nil (a : string) (l : list ApprovalRequest) :
  (forall y, y ∈ l -> id y <> a) -> filter (fun y => id y = a) l = [].
Proof.
  induction l as [|x l IH]; intros H; [done|].
  rewrite filter_cons_False by (apply H; constructor).
  apply IH. intros y Hy. apply H. by constructor.
Qed.

(** A second call for an id already resolved changes nothing. *)
Lemma handle_resolved_same (a : string) (st : ApprovalStatus)
    (r : Resolution) (w : WorkflowState) :
  resolved_as a st w -> approval_id r = a -> handle elapsed r w = w.
Proof.
  intros (Hrec & _) Hid. unfold handle, resolve. by rewrite Hid, Hrec.
Qed.

(** A call for any id leaves what is recorded for a resolved id. *)
Lemma handle_keeps_resolved (a : string) (st : ApprovalStatus)
    (r : Resolution) (w : WorkflowState) :
  resolved_as a st w -> resolved_as a st (handle elapsed r w).
Proof.
  intros Hres.
  destruct (decide (approval_id r = a)) as [Hid|Hid].
  { by rewrite (handle_resolved_same a st r w Hres Hid). }
  destruct Hres as (Hrec & Hlen & Hpend).
  unfold handle, resolve.
  destruct (recorded (approval_id r) w) as [st'|]; [done|].
  destruct (find (has_id (approval_id r)) (pending_approvals w))
    as [x|] eqn:Hfind; [|done].
  apply find_has_id_Some in Hfind as [_ Hx]. cbn.
  repeat split.
  - unfold recorded in *. cbn. rewrite find_app_first.
    by destruct (find (has_id a) (approval_history w)).
  - unfold entries in *. cbn. rewrite filter_app.
    rewrite filter_cons_False by (cbn; congruence).
    by rewrite filter_nil, app_nil_r.
  - intros (y & Hy & Hya). apply Hpend. exists y. split; [|done].
    cbn in Hy. by apply list_elem_of_filter in Hy as [_ Hy].
Qed.

Lemma handle_all_keeps_resolved (a : string) (st : ApprovalStatus)
    (rs : list Resolution) (w : WorkflowState) :
  resolved_as a st w -> resolved_as a st (handle_all elapsed rs w).
Proof.
  revert w. induction rs as [|r rs IH]; intros w Hres; [done|].
  cbn. apply IH. by apply handle_keeps_resolved.
Qed.

Lemma handle_all_same_noop (a : string) (st : ApprovalStatus)
    (rs : list Resolution) (w : WorkflowState) :
  resolved_as a st w -> Forall (fun r => approval_id r = a) rs ->
  handle_all elapsed rs w = w.
Proof.
  intros Hres Hall. induction Hall as [|r rs Hr _ IH]; [done|].
  cbn. by rewrite (handle_resolved_same a st r w Hres Hr).
Qed.

(** The first call for a pending id records the decision. *)
Lemma handle_first (a : string) (r : Resolution) (w : WorkflowState) :
  is_pending a w -> (forall y, y ∈ approval_history w -> id y <> a) ->
  approval_id r = a ->
  exists x,
    find (has_id a) (pending_approvals w) = Some x /\
    resolved_as a
      (if is_expired elapsed (handled_at r) x then expired
       else if approved r then WorkflowStore.approved else rejected)
      (handle elapsed r w).
Proof.
  intros (x0 & Hx0 & Hx0id) Hhist Hid.
  destruct (find (has_id a) (pending_approvals w)) as [x|] eqn:Hfind.
  2: { exfalso. by eapply find_has_id_None in Hfind. }
  exists x. split; [done|].
  pose proof (proj2 (find_has_id_None a (approval_history w)) Hhist) as Hnone.
  apply find_has_id_Some in Hfind as Hx. destruct Hx as [_ Hx].
  unfold handle, resolve, recorded. rewrite Hid, Hnone, Hfind. cbn.
  repeat split.
  - unfold recorded. cbn. rewrite find_app_first, Hnone. cbn.
    unfold has_id. cbn. by rewrite bool_decide_eq_true_2.
  - unfold entries. cbn. rewrite filter_app, filter_id_nil by done.
    by rewrite filter_cons_True.
  - intros (y & Hy & Hya). cbn in Hy.
    by apply list_elem_of_filter in Hy as [Hne _].
Qed.

(** C2. Let an approval id be pending and absent from the history, as the
    data model requires. Resolve it once, and compare with resolving it that
    same first time followed by any further resolutions, over either
    channel, with any outcome, for this id or others. Both leave the same
    status recorded for the id: the first decision ([expired] if its
    deadline had elapsed by then, else [approved] or [rejected] as the first
    call said). The history then holds exactly one entry for the id, the
    id is pending no more, and when the further resolutions all name this id
    the whole snapshot is the one the first call left. *)
Theorem first_resolution_wins (a : string) (w : WorkflowState)
    (r : Resolution) (rs : list Resolution) :
  is_pending a w -> (forall y, y ∈ approval_history w -> id y <> a) ->
  approval_id r = a ->
  let once := handle elapsed r w in
  let many := handle_all elapsed (r :: rs) w in
  (exists x,
     find (has_id a) (pending_approvals w) = Some x /\
     let first := if is_expired elapsed (handled_at r) x then expired
                  else if approved r then WorkflowStore.approved
                       else rejected in
     recorded a once = Some first /\ recorded a many = Some first) /\
  length (entries a many) = 1 /\
  ~ is_pending a many /\
  (Forall (fun r' => approval_id r' = a) rs -> many = once).
Proof.
  intros Hpend Hhist Hid once many. subst once many. cbn.
  destruct (handle_first a r w Hpend Hhist Hid) as (x & Hfind & Hres).
  pose proof (handle_all_keeps_resolved a _ rs _ Hres) as Hmany.
  split; [|split; [|split]].
  - exists x. split; [done|]. cbv zeta. split; [apply Hres | apply Hmany].
  - apply Hmany.
  - apply Hmany.
  - intros Hall. by eapply handle_all_same_noop.
Qed.

End ApprovalProperties.

Lemma first_resolution_wins_witness :
  ApprovalCoordinator.recorded "A1"
    (ApprovalCoordinator.handle_all Samples.iso_elapsed
       (Samples.push_then_request "A1") (Samples.awaiting Samples.approval_A1))
  = Some WorkflowStore.approved /\
  length (ApprovalCoordinator.entries "A1"
            (ApprovalCoordinator.handle_all Samples.iso_elapsed
               (Samples.push_then_request "A1")
               (Samples.awaiting Samples.approval_A1))) = 1.
Proof.
  destruct (first_resolution_wins Samples.iso_elapsed "A1"
              (Samples.awaiting Samples.approval_A1)
              {| ApprovalCoordinator.via := ApprovalCoordinator.Push;
                 ApprovalCoordinator.approval_id := "A1";
                 ApprovalCoordinator.approved := true;
                 ApprovalCoordinator.reason := None;
                 ApprovalCoordinator.handled_at := "2025-01-01T00:00:03.000Z" |}
              [ {| ApprovalCoordinator.via := ApprovalCoordinator.RequestResponse;
                   ApprovalCoordinator.approval_id := "A1";
                   ApprovalCoordinator.approved := false;
                   ApprovalCoordinator.reason := None;
                   ApprovalCoordinator.handled_at := "2025-01-01T00:00:03.050Z" |} ])
    as ((x & Hfind & _ & Hmany) & Hlen & _).
  - exists Samples.approval_A1. split; [constructor | reflexivity].
  - intros y Hy. cbn in Hy. by apply elem_of_nil in Hy.
  - reflexivity.
  - injection Hfind as <-. split; [exact Hmany | exact Hlen].
Defined.

(** ** The scenarios of the approval coordinator *)
Section ApprovalScenarios.
Import WorkflowStore ApprovalCoordinator.

(** Dual-channel scenario: A1 is approved over the push channel and then
    rejected over the API; it stays approved, once in the history. *)
Lemma dual_channel_scenario :
  let w := handle_all Samples.iso_elapsed (Samples.push_then_request "A1")
             (Samples.awaiting Samples.approval_A1) in
  pending_approvals w = [] /\
  approval_history w = [with_status WorkflowStore.approved Samples.approval_A1] /\
  version w = 6%Z.
Proof. by vm_compute. Qed.

(** Expiry scenario: A2 is past its deadline when first touched; it is
    recorded as expired and the later call changes nothing. *)
Lemma expiry_scenario :
  let w := handle_all Samples.iso_elapsed (Samples.push_then_request "A2")
             (Samples.awaiting Samples.approval_A2) in
  pending_approvals w = [] /\
  approval_history w = [with_status expired Samples.approval_A2] /\
  version w = 6%Z.
Proof. by vm_compute. Qed.

(** What the front end submits for one decision: when the socket is open
    and a workflow is loaded, [handleApprove] and [handleReject] put one
    frame on the socket and one request on the API, naming the same id and
    the same outcome, so the coordinator sees two resolutions of one
    approval. *)
Lemma dual_submission (b : bool) (a : string) (why : option string)
    (c : ApprovalManager.Component) (h : nat) (k : WebSocketStore.WebSocket)
    (wf : WorkflowState) :
  WebSocketStore.ws (WebSocketStore.store (ApprovalManager.world c)) = Some h ->
  WebSocketStore.connectionStatus
    (WebSocketStore.store (ApprovalManager.world c)) = WebSocketStore.connected ->
  WebSocketStore.sockets (ApprovalManager.world c) !! h = Some k ->
  WebSocketStore.readyState k = WebSocketStore.OPEN ->
  currentWorkflow
    (Dispatcher.workflowStore
       (WebSocketStore.stores (ApprovalManager.world c))) = Some wf ->
  exists c' req,
    ApprovalManager.submit_begin b a why c = Dispatcher.Normal (c', Some req) /\
    WebSocketStore.send_calls (ApprovalManager.world c') =
      WebSocketStore.send_calls (ApprovalManager.world c)
        ++ [(h, WebSocketStore.Approval a b why)] /\
    body req = BodyApprove a b why /\
    (forall t t',
       approval_id <$> of_frame (WebSocketStore.Approval a b why) t
         = approval_id <$> of_request req t' /\
       approved <$> of_frame (WebSocketStore.Approval a b why) t
         = approved <$> of_request req t').
Proof.
  intros Hws Hconn Hk Hopen Hwf.
  unfold ApprovalManager.submit_begin, WebSocketStore.send,
    WebSocketStore.socket_send.
  rewrite Hws, Hconn, Hk. cbn. rewrite Hopen.
  unfold approveAction_begin, guarded_begin. cbn. rewrite Hwf.
  eexists _, _. split; [reflexivity|]. by cbn.
Qed.

End ApprovalScenarios.

(** * Further properties of the stores *)

(** ** workflowStore.ts: local edits and the life of a request *)
Section WorkflowStoreMore.
Import WorkflowStore.

Lemma with_urls_same (w : WorkflowState) : with_urls (urls w) w = w.
Proof. by destruct w. Qed.

Lemma with_phase_same (w : WorkflowState) : with_phase (phase w) w = w.
Proof. by destruct w. Qed.

(** X1. [addURLs] accumulates: adding nothing changes nothing, adding [a] and
    then [b] is adding [a ++ b], and a loaded workflow gets the new URLs
    after the ones it had while its phase, version and transitions log stay
    as they were. *)
Theorem addURLs_accumulates (a b : list URLInfo) (s : Store) :
  addURLs [] s = s /\
  addURLs b (addURLs a s) = addURLs (a ++ b) s /\
  urls <$> currentWorkflow (addURLs a s)
    = (fun w => urls w ++ a) <$> currentWorkflow s /\
  phase <$> currentWorkflow (addURLs a s) = phase <$> currentWorkflow s /\
  version <$> currentWorkflow (addURLs a s) = version <$> currentWorkflow s /\
  phase_transitions <$> currentWorkflow (addURLs a s)
    = phase_transitions <$> currentWorkflow s.
Proof.
  destruct s as [[w|] hist pend busy err]; unfold addURLs; cbn.
  - rewrite app_nil_r, with_urls_same.
    repeat split. unfold with_urls. cbn. by rewrite app_assoc.
  - done.
Qed.

(** X2. [updateWorkflowPhase]: the last write wins, writing the phase already
    held changes nothing, and version, URLs and the transitions log are
    never touched. *)
Theorem updateWorkflowPhase_last_wins (p q : WorkflowPhase) (s : Store) :
  updateWorkflowPhase q (updateWorkflowPhase p s) = updateWorkflowPhase q s /\
  (phase <$> currentWorkflow s = Some p -> updateWorkflowPhase p s = s) /\
  version <$> currentWorkflow (updateWorkflowPhase p s)
    = version <$> currentWorkflow s /\
  phase_transitions <$> currentWorkflow (updateWorkflowPhase p s)
    = phase_transitions <$> currentWorkflow s /\
  workflowHistory (updateWorkflowPhase p s) = workflowHistory s.
Proof.
  destruct s as [[w|] hist pend busy err]; unfold updateWorkflowPhase; cbn.
  - repeat split. intros [= <-]. by rewrite with_phase_same.
  - done.
Qed.

(** X3. The life of a request. When one of the five server calls issues a
    request, the store is marked busy and the old error is cleared. However
    the request settles, the busy mark is removed. A resolved request
    installs the returned snapshot and leaves no error; a rejected one
    records an error and leaves the snapshot held at the time. *)
Theorem request_brackets_processing (c : Call) (s : Store) (req : Request) :
  (begin_of c s).2 = Some req ->
  let s1 := (begin_of c s).1 in
  isProcessing s1 = true /\ error s1 = None /\
  currentWorkflow s1 = currentWorkflow s /\
  (forall r s2, isProcessing (settle_of c r s2) = false) /\
  (forall u, error (settle_of c (Resolved u) s1) = None /\
             currentWorkflow (settle_of c (Resolved u) s1) = Some u) /\
  (forall d, is_Some (error (settle_of c (Rejected d) s1)) /\
             currentWorkflow (settle_of c (Rejected d) s1) = currentWorkflow s).
Proof.
  intros Hreq.
  assert (Hs1 : (begin_of c s).1 = start_processing s).
  { destruct c; cbn in *;
      unfold updateURLs_begin, updateSchema_begin, approveAction_begin,
        transitionToPhase_begin, guarded_begin in *;
      try (destruct (currentWorkflow s); cbn in *; [done | discriminate]);
      done. }
  cbv zeta. rewrite Hs1.
  split; [done|]. split; [done|]. split; [done|].
  split; [by intros r s2; destruct c, r|].
  split; [by intros u; destruct c | by intros d; destruct c].
Qed.

(** A request that is never answered leaves the store busy. *)
Lemma unanswered_request_stays_busy (c : Call) (s : Store) (req : Request) :
  (begin_of c s).2 = Some req ->
  isProcessing (run_async (begin_of c) (settle_of c) None s) = true.
Proof.
  intros Hreq. unfold run_async.
  destruct (begin_of c s) as [s1 o] eqn:Hb. cbn in Hreq. subst o.
  replace s1 with (begin_of c s).1 by by rewrite Hb.
  destruct c; cbn in *;
    unfold updateURLs_begin, updateSchema_begin, approveAction_begin,
      transitionToPhase_begin, guarded_begin in *;
    try (destruct (currentWorkflow s); cbn in *; [done | discriminate]);
    done.
Qed.

(** X4. The two lists kept beside the snapshot. [setWorkflow] copies both from
    the snapshot it installs. No response of a server call refreshes
    [workflowHistory], and only the response of [approveAction] refreshes
    [pendingApprovals]: after any other resolved call the two lists are the
    ones held before, whatever the new snapshot says. *)
Theorem responses_leave_side_lists (c : Call) (r : Settled WorkflowState)
    (s : Store) (u : WorkflowState) :
  workflowHistory (setWorkflow u s) = phase_transitions u /\
  pendingApprovals (setWorkflow u s) = pending_approvals u /\
  workflowHistory (settle_of c r s) = workflowHistory s /\
  pendingApprovals (settle_of c r s) =
    match c, r with
    | Call_approveAction _ _ _, Resolved v => pending_approvals v
    | _, _ => pendingApprovals s
    end.
Proof. by destruct c, r. Qed.

(** [fetchWorkflowHistory] keeps quiet: it never marks the store busy, a
    failed or unanswered fetch leaves the store exactly as it was (no error
    is recorded), and a resolved one replaces [workflowHistory] alone. *)
Theorem fetchWorkflowHistory_is_quiet (pid : string) (s : Store)
    (d : option string) (ts : list WorkflowTransition) :
  (fetchWorkflowHistory_begin pid s).1 = s /\
  fetchWorkflowHistory pid (Some (Rejected d)) s = s /\
  fetchWorkflowHistory pid None s = s /\
  fetchWorkflowHistory pid (Some (Resolved ts)) s = set_workflowHistory ts s /\
  currentWorkflow (fetchWorkflowHistory pid (Some (Resolved ts)) s)
    = currentWorkflow s.
Proof. done. Qed.

End WorkflowStoreMore.

Lemma request_brackets_processing_witness :
  WorkflowStore.isProcessing
    (WorkflowStore.begin_of (WorkflowStore.Call_fetchWorkflow "p1")
       WorkflowStore.initial).1 = true.
Proof.
  apply (request_brackets_processing (WorkflowStore.Call_fetchWorkflow "p1")
           WorkflowStore.initial
           {| WorkflowStore.method := WorkflowStore.GET;
              WorkflowStore.path := "/workflow/p1";
              WorkflowStore.body := WorkflowStore.NoBody |}).
  reflexivity.
Defined.

(** ** websocketStore.ts: what [connect] and [disconnect] leave behind *)
Section TransportMore.
Import Dispatcher WebSocketStore.

Variable JSON_parse : string -> option Parsed.



(** X6. [disconnect] is idempotent, and with no socket in [ws] it does
    nothing at all. *)
Theorem disconnect_idempotent (w : World) :
  disconnect (disconnect w) = disconnect w /\
  (ws (store w) = None -> disconnect w = w).
Proof.
  destruct (ws (store w)) as [h|] eqn:Hws.
  - split; [|done]. unfold disconnect. by rewrite Hws.
  - assert (H : disconnect w = w) by (unfold disconnect; by rewrite Hws).
    by rewrite !H.
Qed.



Lemma dispatch_keeps_rest (clock : Clock) (data : Frame) (st : Stores) :
  let st' := dispatch clock data st in
  pipelineStore st' = pipelineStore st /\
  WorkflowStore.isProcessing (workflowStore st')
    = WorkflowStore.isProcessing (workflowStore st) /\
  WorkflowStore.error (workflowStore st')
    = WorkflowStore.error (workflowStore st) /\
  ChatStore.isLoading (chatStore st') = ChatStore.isLoading (chatStore st).
Proof.
  unfold dispatch. cbv zeta.
  repeat case_decide;
    try (by destruct (state data),
              (PipelineStore.currentPipeline (pipelineStore st)));
    try (by destruct (workflow data));
    try (by destruct (approval data));
    try done.
  by destruct (truthy (response data)), (workflow_state data).
Qed.

Lemma dispatch_messages (clock : Clock) (data : Frame) (st : Stores) :
  ChatStore.messages (chatStore (dispatch clock data st)) =
  ChatStore.messages (chatStore st) ++
    (if decide (type data = Some "response") then
       match truthy (response data) with
       | Some text =>
           [{| ChatStore.id := pretty (now clock);
               ChatStore.role := ChatStore.assistant;
               ChatStore.content := text;
               ChatStore.timestamp := toISOString clock;
               ChatStore.toolsUsed := None |}]
       | None => []
       end
     else []).
Proof.
  unfold dispatch.
  destruct (decide (type data = Some "response")) as [E|E].
  - rewrite E. cbn.
    by destruct (truthy (response data)), (workflow_state data);
      cbn; rewrite ?app_nil_r.
  - repeat case_decide; try done; rewrite app_nil_r;
      try (by destruct (state data),
                (PipelineStore.currentPipeline (pipelineStore st)));
      try (by destruct (workflow data));
      by destruct (approval data).
Qed.

(** X9. What a frame can touch. Whatever the frame, the dispatcher leaves the
    pipeline store as it is (a [state_update] only issues a request), leaves
    the busy mark and the error of the workflow store alone, and keeps every
    chat message already shown; it adds at most one message, an assistant's,
    and only for a [response] frame. *)
Theorem dispatch_footprint (clock : Clock) (data : Frame) (st : Stores) :
  let st' := dispatch clock data st in
  pipelineStore st' = pipelineStore st /\
  WorkflowStore.isProcessing (workflowStore st')
    = WorkflowStore.isProcessing (workflowStore st) /\
  WorkflowStore.error (workflowStore st')
    = WorkflowStore.error (workflowStore st) /\
  ChatStore.isLoading (chatStore st') = ChatStore.isLoading (chatStore st) /\
  exists added,
    ChatStore.messages (chatStore st')
      = ChatStore.messages (chatStore st) ++ added /\
    length added <= 1 /\
    (added <> [] -> type data = Some "response") /\
    (forall m, m ∈ added -> ChatStore.role m = ChatStore.assistant).
Proof.
  cbv zeta.
  destruct (dispatch_keeps_rest clock data st) as (H1 & H2 & H3 & H4).
  do 4 (split; [done|]).
  eexists. split; [apply dispatch_messages|].
  destruct (decide (type data = Some "response")) as [E|E].
  - destruct (truthy (response data)) as [text|].
    + split; [cbn; lia|]. split; [done|].
      intros m Hm. apply list_elem_of_singleton in Hm. by subst m.
    + split; [cbn; lia|]. split; [done|].
      intros m Hm. by apply elem_of_nil in Hm.
  - split; [cbn; lia|]. split; [done|].
    intros m Hm. by apply elem_of_nil in Hm.
Qed.

End TransportMore.



(** ** websocketStore.ts: reconnection left to itself comes to an end *)
Section RetryProperties.
Import Dispatcher WebSocketStore Retry.

Variable JSON_parse : string -> option Parsed.

Lemma unclosed_cons (k : WebSocket) (l : list WebSocket) :
  unclosed (k :: l) =
  if decide (readyState k <> CLOSED) then S (unclosed l) else unclosed l.
Proof. unfold unclosed. rewrite filter_cons. by case_decide. Qed.

Lemma unclosed_after_close (l : list WebSocket) (h : nat) (k : WebSocket) :
  l !! h = Some k -> readyState k <> CLOSED ->
  S (unclosed (alter (set_readyState CLOSED) h l)) = unclosed l.
Proof.
  revert h. induction l as [|x l IH]; intros h Hk Hne; [done|].
  destruct h as [|h]; cbn in Hk.
  - injection Hk as ->. cbn [alter list_alter].
    rewrite !unclosed_cons. cbn. rewrite decide_False by (by intros H; apply H).
    by rewrite decide_True.
  - cbn [alter list_alter]. rewrite !unclosed_cons.
    case_decide; [f_equal|]; by apply IH.
Qed.

Lemma unclosed_after_closing (l : list WebSocket) (h : nat) :
  unclosed (alter (fun k => match readyState k with
                            | CONNECTING | OPEN => set_readyState CLOSING k
                            | CLOSING | CLOSED => k
                            end) h l) = unclosed l.
Proof.
  revert h. induction l as [|x l IH]; intros h; [done|].
  destruct h as [|h]; cbn [alter list_alter]; rewrite !unclosed_cons.
  - destruct (readyState x) eqn:E; cbn; rewrite ?E; done.
  - by rewrite IH.
Qed.

Lemma unclosed_snoc (l : list WebSocket) (k : WebSocket) :
  readyState k <> CLOSED -> unclosed (l ++ [k]) = S (unclosed l).
Proof.
  intros Hne. unfold unclosed.
  rewrite filter_app, length_app, filter_cons_True by done. cbn. lia.
Qed.

Lemma connect_sockets (pid : string) (w : World) :
  sockets (connect pid w) =
  match ws (store w) with
  | Some h =>
      alter (fun k => match readyState k with
                      | CONNECTING | OPEN => set_readyState CLOSING k
                      | CLOSING | CLOSED => k
                      end) h (sockets w)
  | None => sockets w
  end ++ [{| pipelineId := pid; readyState := CONNECTING |}].
Proof.
  unfold connect. cbv zeta.
  destruct (ws (store w)) as [h|] eqn:Hws; [|done].
  unfold disconnect. by rewrite Hws.
Qed.

Lemma unclosed_after_connect (pid : string) (w : World) :
  unclosed (sockets (connect pid w)) = S (unclosed (sockets w)).
Proof.
  rewrite connect_sockets, unclosed_snoc by done.
  destruct (ws (store w)); [by rewrite unclosed_after_closing | done].
Qed.

Lemma connect_keeps_counter (pid : string) (w : World) :
  reconnectAttempts (store (connect pid w)) = reconnectAttempts (store w) /\
  timers (connect pid w) = timers w.
Proof.
  unfold connect. cbv zeta.
  destruct (ws (store w)) as [h|] eqn:Hws; [|done].
  unfold disconnect. by rewrite Hws.
Qed.

(** One unattended event never raises the budget, and a timer that fires
    lowers it. *)
Lemma step_spends_budget (e : Event) (w w' : World) :
  unattended e = true -> step JSON_parse e w = Some w' ->
  firings [e] + budget w' <= budget w.
Proof.
  intros Hun Hstep.
  destruct e as [pid| |payload|h|h clock raw|h|h|k]; try discriminate;
    cbn in Hstep.
  - destruct (sockets w !! h) as [s|]; [|done]. cbn in Hstep.
    destruct (readyState s); try done. by injection Hstep as <-.
  - destruct (sockets w !! h) as [s|]; [|done]. cbn in Hstep.
    by injection Hstep as <-.
  - destruct (sockets w !! h) as [s|] eqn:Hs; [|done]. cbn in Hstep.
    assert (Hne : readyState s <> CLOSED -> w' =
              onclose (pipelineId s)
                (on_sockets (alter (set_readyState CLOSED) h) w)).
    { intros Hne. destruct (readyState s); try done;
        by injection Hstep as <-. }
    destruct (decide (readyState s = CLOSED)) as [E|E];
      [by rewrite E in Hstep|].
    rewrite (Hne E).
    pose proof (unclosed_after_close (sockets w) h s Hs E) as Hdrop.
    unfold budget, onclose. cbn.
    destruct (decide (reconnectAttempts (store w) < 5)) as [Hlt|Hge]; cbn.
    + rewrite length_app, decide_True by done. cbn.
      unfold unclosed in *. lia.
    + rewrite decide_False by done. lia.
  - destruct (timers w !! k) as [t|] eqn:Ht; [|done]. cbn in Hstep.
    injection Hstep as <-.
    assert (Hlen : S (length (delete k (timers w))) = length (timers w)).
    { rewrite length_delete by eauto.
      apply lookup_lt_Some in Ht. lia. }
    unfold budget, reconnect.
    destruct (connect_keeps_counter (timer_pipelineId t)
                (on_store (fun s => set_reconnectAttempts
                                      (reconnectAttempts s + 1) s)
                   (on_timers (delete k) w))) as [-> ->].
    rewrite unclosed_after_connect. cbn.
    unfold unclosed in *. repeat case_decide; lia.
Qed.

Lemma firings_cons (e : Event) (rest : list Event) :
  firings (e :: rest) = firings [e] + firings rest.
Proof. by destruct e. Qed.

Lemma run_spends_budget (trace : list Event) (w w' : World) :
  forallb unattended trace = true ->
  run JSON_parse trace w = Some w' ->
  firings trace + budget w' <= budget w.
Proof.
  revert w. induction trace as [|e rest IH]; intros w Hun Hrun.
  - injection Hrun as <-. cbn. lia.
  - cbn in Hun. apply andb_true_iff in Hun as [He Hrest].
    cbn in Hrun. destruct (step JSON_parse e w) as [w1|] eqn:Hstep; [|done].
    cbn in Hrun.
    pose proof (step_spends_budget e w w1 He Hstep).
    pose proof (IH w1 Hrest Hrun).
    rewrite firings_cons. lia.
Qed.

(** X10. Left to itself, reconnection comes to an end. Along any run of
    platform events in which no socket opens and nobody calls the store,
    the timers that fire are paid from a budget that such events never
    refill: the timers pending, plus, while the attempt counter is below 5,
    one per socket not yet closed and one per step the counter is short of
    4. *)
Theorem reconnections_are_bounded (trace : list Event) (w w' : World) :
  forallb unattended trace = true ->
  run JSON_parse trace w = Some w' ->
  firings trace + budget w' <= budget w.
Proof. apply run_spends_budget. Qed.

(** X11. After a [connect] from start-up at most five reconnections follow
    unless a socket opens or the store is called. *)
Theorem at_most_five_reconnections (pid : string) (trace : list Event)
    (w' : World) :
  forallb unattended trace = true ->
  run JSON_parse trace (connect pid Samples.initial_world) = Some w' ->
  firings trace <= 5.
Proof.
  intros Hun Hrun.
  pose proof (run_spends_budget trace _ w' Hun Hrun) as Hb.
  change (budget (connect pid Samples.initial_world)) with 5 in Hb. lia.
Qed.

End RetryProperties.

Lemma reconnections_are_bounded_witness :
  Retry.firings [WebSocketStore.Socket_close 0; WebSocketStore.Timer_fires 0]
  + Retry.budget
      (WebSocketStore.reconnect "p1"
         (WebSocketStore.on_timers (delete 0)
            (WebSocketStore.onclose "p1"
               (WebSocketStore.on_sockets
                  (alter (WebSocketStore.set_readyState
                            WebSocketStore.CLOSED) 0)
                  MoreSamples.connecting_world))))
  <= Retry.budget MoreSamples.connecting_world.
Proof.
  apply (reconnections_are_bounded (fun _ => None)
           [WebSocketStore.Socket_close 0; WebSocketStore.Timer_fires 0]).
  - reflexivity.
  - reflexivity.
Defined.

Lemma at_most_five_reconnections_witness :
  Retry.firings (Samples.failures 5 0) <= 5.
Proof.
  apply (at_most_five_reconnections (fun _ => None) "p1"
           (Samples.failures 5 0)
           (default Samples.initial_world
              (WebSocketStore.run (fun _ => None) (Samples.failures 5 0)
                 (WebSocketStore.connect "p1" Samples.initial_world)))).
  - reflexivity.
  - vm_compute. reflexivity.
Defined.

(** ** WorkflowSidebar.tsx: the column of statuses *)
Section SidebarMore.
Import WorkflowSidebar.

Lemma indexOf_absent (l : list string) (x : string) :
  x ∉ l -> indexOf l x = (-1)%Z.
Proof.
  induction l as [|y l IH]; intros Hx; [done|]. cbn.
  apply not_elem_of_cons in Hx as [Hne Hx].
  rewrite decide_False by done. rewrite (IH Hx). by rewrite decide_True.
Qed.

(** X12. When the snapshot's phase is the row at position [j], the column reads
    completed for the [j] rows before it, active for that row alone and
    pending for the rows after it. *)
Theorem statuses_split_at_phase (w : WorkflowState) (j : nat)
    (q : WorkflowPhase) :
  phases !! j = Some q -> phase w = id q ->
  (fun p => getPhaseStatus (Some w) (id p)) <$> phases =
  replicate j completed ++ [active] ++ replicate (8 - j) pending.
Proof.
  intros Hq Hw. unfold getPhaseStatus.
  do 9 (destruct j as [|j];
        [injection Hq as <-; cbn in Hw; rewrite Hw; vm_compute;
         reflexivity|]).
  discriminate.
Qed.

(** X13. A phase the list does not know, other than "error", shows no progress
    at all: every row is pending and none is active. *)
Theorem unknown_phase_all_pending (w : WorkflowState) (p : WorkflowPhase) :
  phase w ∉ (id <$> phases) -> phase w <> "error" -> p ∈ phases ->
  getPhaseStatus (Some w) (id p) = pending.
Proof.
  intros Habs Herr Hp.
  apply list_elem_of_lookup in Hp as [i Hi].
  unfold getPhaseStatus. cbv zeta.
  rewrite (indexOf_phase i p Hi), (indexOf_absent _ _ Habs).
  rewrite decide_False by done.
  rewrite decide_False by lia. by rewrite decide_False by lia.
Qed.

End SidebarMore.

Lemma statuses_split_at_phase_witness :
  (fun p => WorkflowSidebar.getPhaseStatus
              (Some {| WorkflowSidebar.pipeline_id := "p1";
                       WorkflowSidebar.phase := "url_validation";
                       WorkflowSidebar.urls := [];
                       WorkflowSidebar.schema_fields := [];
                       WorkflowSidebar.generated_code := "";
                       WorkflowSidebar.pending_approvals := [];
                       WorkflowSidebar.phase_transitions := [];
                       WorkflowSidebar.updated_at := "2025-01-01T00:00:00Z" |})
              (WorkflowSidebar.id p)) <$> WorkflowSidebar.phases =
  replicate 2 WorkflowSidebar.completed ++ [WorkflowSidebar.active]
    ++ replicate 6 WorkflowSidebar.pending.
Proof.
  exact (statuses_split_at_phase
           {| WorkflowSidebar.pipeline_id := "p1";
              WorkflowSidebar.phase := "url_validation";
              WorkflowSidebar.urls := [];
              WorkflowSidebar.schema_fields := [];
              WorkflowSidebar.generated_code := "";
              WorkflowSidebar.pending_approvals := [];
              WorkflowSidebar.phase_transitions := [];
              WorkflowSidebar.updated_at := "2025-01-01T00:00:00Z" |}
           2
           {| WorkflowSidebar.id := "url_validation";
              WorkflowSidebar.label := "Validate URLs";
              WorkflowSidebar.description := "Check URL relevance";
              WorkflowSidebar.status := WorkflowSidebar.pending |}
           eq_refl eq_refl).
Defined.

Lemma unknown_phase_all_pending_witness :
  WorkflowSidebar.getPhaseStatus
    (Some {| WorkflowSidebar.pipeline_id := "p1";
             WorkflowSidebar.phase := "paused";
             WorkflowSidebar.urls := [];
             WorkflowSidebar.schema_fields := [];
             WorkflowSidebar.generated_code := "";
             WorkflowSidebar.pending_approvals := [];
             WorkflowSidebar.phase_transitions := [];
             WorkflowSidebar.updated_at := "2025-01-01T00:00:00Z" |})
    "initial" = WorkflowSidebar.pending.
Proof.
  apply (unknown_phase_all_pending
           {| WorkflowSidebar.pipeline_id := "p1";
              WorkflowSidebar.phase := "paused";
              WorkflowSidebar.urls := [];
              WorkflowSidebar.schema_fields := [];
              WorkflowSidebar.generated_code := "";
              WorkflowSidebar.pending_approvals := [];
              WorkflowSidebar.phase_transitions := [];
              WorkflowSidebar.updated_at := "2025-01-01T00:00:00Z" |}
           {| WorkflowSidebar.id := "initial";
              WorkflowSidebar.label := "Start";
              WorkflowSidebar.description := "Initialize pipeline";
              WorkflowSidebar.status := WorkflowSidebar.pending |}).
  - compute_done.
  - discriminate.
  - constructor.
Defined.

(** ** ApprovalManager.tsx: which channel carries a decision *)
Section ApprovalManagerMore.
Import Dispatcher WebSocketStore ApprovalManager.

(** X14. A decision goes out on each channel that is available and on no other.
    In a world where [connected] means an open socket, the handler does not
    throw; the frame reaches the socket exactly when the store is connected,
    the request is issued exactly when a workflow is loaded, and both name
    the id and the outcome the handler was given. With no workflow loaded
    the prompt is cleared at once, with or without a frame: when the store is
    not connected either, the decision is dropped without notice. *)
Theorem decision_uses_available_channels (b : bool) (a : string)
    (why : option string) (c : Component) :
  connected_means_open (world c) ->
  exists c' req,
    submit_begin b a why c = Normal (c', req) /\
    send_calls (world c') =
      send_calls (world c) ++
        match ws (store (world c)), connectionStatus (store (world c)) with
        | Some h, connected => [(h, Approval a b why)]
        | _, _ => []
        end /\
    (req = None <->
     WorkflowStore.currentWorkflow (workflowStore (stores (world c))) = None) /\
    (forall r, req = Some r ->
               WorkflowStore.body r = WorkflowStore.BodyApprove a b why) /\
    currentApproval c' = match req with
                         | Some _ => currentApproval c
                         | None => None
                         end.
Proof.
  intros Hinv. unfold submit_begin.
  assert (Hsend : exists w',
            send (Approval a b why) (world c) = Normal w' /\
            stores w' = stores (world c) /\
            send_calls w' = send_calls (world c) ++
              match ws (store (world c)),
                    connectionStatus (store (world c)) with
              | Some h, connected => [(h, Approval a b why)]
              | _, _ => []
              end).
  { unfold send.
    destruct (ws (store (world c))) as [h|] eqn:Hws;
      [|by eexists; rewrite app_nil_r].
    destruct (connectionStatus (store (world c))) eqn:Hc;
      try (by eexists; rewrite app_nil_r).
    destruct (Hinv Hc) as (h' & k & Hh & Hk & Hopen).
    rewrite Hws in Hh. injection Hh as <-.
    unfold socket_send. rewrite Hk. cbn. rewrite Hopen. by eexists. }
  destruct Hsend as (w' & -> & Hst & Hcalls).
  unfold WorkflowStore.approveAction_begin, WorkflowStore.guarded_begin.
  rewrite Hst.
  destruct (WorkflowStore.currentWorkflow (workflowStore (stores (world c))))
    as [wf|]; eexists _, _; (split; [reflexivity|]); cbn;
    (split; [exact Hcalls|]).
  - split; [done|]. split; [by intros r [= <-] | done].
  - done.
Qed.

(** However the request settles, the prompt is cleared. *)
Lemma settled_decision_clears_prompt
    (r : WorkflowStore.Settled WorkflowStore.WorkflowState) (c : Component) :
  currentApproval (submit_settle r c) = None /\
  WorkflowStore.isProcessing
    (workflowStore (stores (world (submit_settle r c)))) = false.
Proof. by destruct r. Qed.

End ApprovalManagerMore.

Lemma decision_uses_available_channels_witness :
  exists c',
    ApprovalManager.submit_begin true "A1" None MoreSamples.idle_component
    = Dispatcher.Normal (c', None) /\
    ApprovalManager.currentApproval c' = None /\
    WebSocketStore.send_calls (ApprovalManager.world c') = [].
Proof.
  destruct (decision_uses_available_channels true "A1" None
              MoreSamples.idle_component)
    as (c' & req & Hrun & Hcalls & Hreq & _ & Hprompt).
  - intros [=].
  - assert (Hnone : req = None) by (apply Hreq; reflexivity).
    subst req. exists c'. split; [exact Hrun|]. split; [exact Hprompt|].
    exact Hcalls.
Defined.

(** ** pipelineStore.ts: the list and the selection *)
Section PipelineStoreMore.
Import PipelineStore.

Lemma rewrite_keeps_selection_listed (pid : string)
    (f : Pipeline -> Pipeline) (s : Store) :
  selection_listed s -> selection_listed (rewrite_pipeline pid f s).
Proof.
  unfold selection_listed, rewrite_pipeline. cbn.
  destruct (currentPipeline s) as [c|]; [|done]. intros Hc.
  apply (list_elem_of_fmap_2
           (fun p => if decide (id p = pid) then f p else p)) in Hc.
  by destruct (decide (id c = pid)).
Qed.

(** X15. Updating, creating, deleting and running a pipeline, and setting the
    results, keep the selected pipeline among the listed ones, whatever the
    server answers. *)
Theorem selection_stays_listed (c : Change) (s : Store) :
  selection_listed s -> selection_listed (change c s).
Proof.
  intros Hs.
  destruct c as [pid [u|]| |[n|]|pid [|]|apiKey pid|pid [rs|]|rs]; cbn;
    try done.
  - by apply (rewrite_keeps_selection_listed pid (fun _ => u)).
  - unfold selection_listed. cbn. apply elem_of_app. right. constructor.
  - unfold selection_listed in *. cbn.
    destruct (currentPipeline s) as [cur|]; [|done].
    destruct (decide (id cur = pid)) as [E|E].
    + destruct (head _) as [x|] eqn:Hx; [|done].
      by apply head_Some_elem_of in Hx.
    + by apply list_elem_of_filter.
  - unfold runPipeline_begin.
    destruct (currentPipeline s) eqn:E; [|done]. cbn.
    by apply rewrite_keeps_selection_listed.
  - by apply (rewrite_keeps_selection_listed pid (with_results rs)).
  - by apply rewrite_keeps_selection_listed.
Qed.

(** X16. A successful delete removes every pipeline with the id and no other,
    and the selection never keeps the id: a selected pipeline that was
    deleted gives way to the first one left, or to none. A failed delete
    changes nothing. *)
Theorem delete_removes_the_id (pid : string) (s : Store) :
  let s' := deletePipeline_settle pid true s in
  (forall p, p ∈ pipelines s' <-> p ∈ pipelines s /\ id p <> pid) /\
  (forall c, currentPipeline s' = Some c -> id c <> pid) /\
  (forall c, currentPipeline s = Some c -> id c <> pid ->
             currentPipeline s' = Some c) /\
  deletePipeline_settle pid false s = s.
Proof.
  cbn. split; [|split; [|split]]; [| | |done].
  - intros p. rewrite list_elem_of_filter. tauto.
  - intros c. destruct (currentPipeline s) as [cur|]; [|done].
    destruct (decide (id cur = pid)) as [E|E]; [|congruence].
    intros Hx. apply head_Some_elem_of in Hx.
    by apply list_elem_of_filter in Hx as [Hne _].
  - intros c -> Hne. by rewrite decide_False.
Qed.

Lemma rewrite_ids (pid : string) (f : Pipeline -> Pipeline) (s : Store) :
  (forall p, id (f p) = id p) ->
  id <$> pipelines (rewrite_pipeline pid f s) = id <$> pipelines s.
Proof.
  intros Hf. unfold rewrite_pipeline. cbn.
  rewrite <- list_fmap_compose. apply list_fmap_ext.
  intros i p _. cbn. by destruct (decide (id p = pid)).
Qed.

Lemma rewrite_status (pid : string) (f : Pipeline -> Pipeline) (s : Store)
    (p : Pipeline) :
  (forall q, id (f q) = id q) ->
  p ∈ pipelines (rewrite_pipeline pid f s) -> id p = pid ->
  exists q, q ∈ pipelines s /\ p = f q.
Proof.
  intros Hf Hp Hid. unfold rewrite_pipeline in Hp. cbn in Hp.
  apply list_elem_of_fmap in Hp as (q & -> & Hq).
  exists q. split; [done|].
  destruct (decide (id q = pid)) as [E|E]; [done|]. by rewrite Hid in E.
Qed.

Lemma settle_status (pid : string) (r : option (list json)) (s : Store)
    (p : Pipeline) :
  p ∈ pipelines (runPipeline_settle pid r s) -> id p = pid ->
  match r with
  | Some rs => status p = completed /\ results p = Some rs
  | None => status p = failed
  end.
Proof.
  intros Hp Hid. destruct r as [rs|]; unfold runPipeline_settle in Hp.
  - change (p ∈ pipelines (rewrite_pipeline pid (with_results rs) s)) in Hp.
    by apply rewrite_status in Hp as (q & _ & ->).
  - by apply rewrite_status in Hp as (q & _ & ->).
Qed.

Lemma settle_ids (pid : string) (r : option (list json)) (s : Store) :
  id <$> pipelines (runPipeline_settle pid r s) = id <$> pipelines s.
Proof.
  destruct r as [rs|]; unfold runPipeline_settle.
  - change (pipelines (setExecutionResults rs
                         (rewrite_pipeline pid (with_results rs) s)))
      with (pipelines (rewrite_pipeline pid (with_results rs) s)).
    by apply rewrite_ids.
  - by apply rewrite_ids.
Qed.

(** X17. A run never leaves a pipeline running once its request settles: every
    listed pipeline with the id is completed and holds the results when the
    request succeeded, and is failed when it did not. While the request is
    pending every such pipeline is running. Neither half changes which ids
    are listed or in which order. *)
Theorem run_settles_status (apiKey : option string) (pid : string)
    (r : option (list json)) (s : Store) (req : ExecuteRequest) :
  (runPipeline_begin apiKey pid s).2 = Some req ->
  let s1 := (runPipeline_begin apiKey pid s).1 in
  let s2 := runPipeline_settle pid r s1 in
  (forall p, p ∈ pipelines s1 -> id p = pid -> status p = running) /\
  (forall p, p ∈ pipelines s2 -> id p = pid ->
     match r with
     | Some rs => status p = completed /\ results p = Some rs
     | None => status p = failed
     end) /\
  id <$> pipelines s1 = id <$> pipelines s /\
  id <$> pipelines s2 = id <$> pipelines s /\
  executionResults s2 = default (executionResults s) r /\
  exec_pipeline_id req = pid.
Proof.
  intros Hreq.
  assert (Hs1 : (runPipeline_begin apiKey pid s).1
                = rewrite_pipeline pid (with_status running) s).
  { unfold runPipeline_begin in *.
    by destruct (currentPipeline s); [|discriminate]. }
  assert (Hpid : exec_pipeline_id req = pid).
  { unfold runPipeline_begin in Hreq.
    destruct (currentPipeline s); [|discriminate].
    cbn in Hreq. by injection Hreq as <-. }
  cbv zeta. rewrite Hs1.
  split; [|split; [|split; [|split; [|split]]]].
  - intros p Hp Hid.
    by apply rewrite_status in Hp as (q & _ & ->).
  - intros p. apply settle_status.
  - by apply rewrite_ids.
  - rewrite settle_ids. by apply rewrite_ids.
  - by destruct r.
  - done.
Qed.

(** With no pipeline selected [runPipeline] does nothing: no status
    changes and no request goes out, whatever id it is given. *)
Lemma run_without_selection (apiKey : option string) (pid : string)
    (s : Store) :
  currentPipeline s = None -> runPipeline_begin apiKey pid s = (s, None).
Proof. intros H. unfold runPipeline_begin. by rewrite H. Qed.

(** X18. An answered update keeps the list's length and every pipeline with
    another id in its place, and puts the server's copy wherever the id
    stood; a failed update changes nothing. *)
Theorem update_replaces_in_place (pid : string) (u : Pipeline) (s : Store)
    (i : nat) (p : Pipeline) :
  pipelines s !! i = Some p ->
  let s' := updatePipeline_settle pid (Some u) s in
  length (pipelines s') = length (pipelines s) /\
  pipelines s' !! i = Some (if decide (id p = pid) then u else p) /\
  updatePipeline_settle pid None s = s.
Proof.
  intros Hp. cbn. rewrite length_fmap, list_lookup_fmap, Hp. done.
Qed.

End PipelineStoreMore.

Lemma selection_stays_listed_witness :
  PipelineStore.selection_listed
    (PipelineStore.change (PipelineStore.Deleted "p1" true)
       MoreSamples.two_pipelines).
Proof.
  apply (selection_stays_listed (PipelineStore.Deleted "p1" true)
           MoreSamples.two_pipelines).
  unfold PipelineStore.selection_listed. cbn. constructor.
Defined.

Lemma run_settles_status_witness :
  PipelineStore.status
    (PipelineStore.with_status PipelineStore.failed
       (MoreSamples.pipeline "p1" PipelineStore.running))
  = PipelineStore.failed.
Proof.
  destruct (run_settles_status None "p1" None MoreSamples.two_pipelines
              {| PipelineStore.exec_pipeline_id := "p1";
                 PipelineStore.exec_code := "";
                 PipelineStore.exec_urls := [];
                 PipelineStore.exec_schema := JObj [];
                 PipelineStore.exec_api_key := None |} eq_refl)
    as (_ & Hdone & _).
  cbv zeta in Hdone. apply Hdone; [|reflexivity].
  change (PipelineStore.with_status PipelineStore.failed
            (MoreSamples.pipeline "p1" PipelineStore.running)
          ∈ [PipelineStore.with_status PipelineStore.failed
               (MoreSamples.pipeline "p1" PipelineStore.running);
             MoreSamples.pipeline "p2" PipelineStore.idle]).
  constructor.
Defined.

Lemma update_replaces_in_place_witness :
  PipelineStore.pipelines
    (PipelineStore.updatePipeline_settle "p2"
       (Some (MoreSamples.pipeline "p2" PipelineStore.completed))
       MoreSamples.two_pipelines) !! 1
  = Some (MoreSamples.pipeline "p2" PipelineStore.completed).
Proof.
  apply (update_replaces_in_place "p2"
           (MoreSamples.pipeline "p2" PipelineStore.completed)
           MoreSamples.two_pipelines 1
           (MoreSamples.pipeline "p2" PipelineStore.idle) eq_refl).
Defined.

(** ** chatStore.ts: the shape of a conversation *)
Section ChatMore.
Import Dispatcher ChatActions.

(** X19. Sending a message shows the user's message at once, after everything
    shown before, marks the store loading and clears the old error. When
    the request settles, whatever happened in between, exactly one
    assistant message is added after the messages shown by then and the
    loading mark is removed. A resolved request shows the answer and
    leaves the error alone; it replaces the execution results only when
    the answer carries a non-empty list. A rejected request records a
    non-empty error and touches neither the pipeline store nor the
    effects. The workflow store and the list of pipelines are never
    touched. *)
Theorem sendMessage_adds_two_messages (s1 s2 : Stamp)
    (content pipelineId : string)
    (r : WorkflowStore.Settled ChatResponse) (st st' : Stores) :
  let st1 := (sendMessage_begin s1 content pipelineId st).1 in
  let st2 := sendMessage_settle s2 pipelineId r st' in
  ChatStore.messages (chatStore st1)
    = ChatStore.messages (chatStore st)
        ++ [say ChatStore.user s1 content None] /\
  ChatStore.isLoading (chatStore st1) = true /\
  ChatStore.error (chatStore st1) = None /\
  (exists reply,
     ChatStore.messages (chatStore st2)
       = ChatStore.messages (chatStore st') ++ [reply] /\
     ChatStore.role reply = ChatStore.assistant /\
     ChatStore.id reply = uuid s2) /\
  ChatStore.isLoading (chatStore st2) = false /\
  workflowStore st2 = workflowStore st' /\
  PipelineStore.pipelines (pipelineStore st2)
    = PipelineStore.pipelines (pipelineStore st') /\
  PipelineStore.currentPipeline (pipelineStore st2)
    = PipelineStore.currentPipeline (pipelineStore st') /\
  match r with
  | WorkflowStore.Resolved d =>
      ChatStore.error (chatStore st2) = ChatStore.error (chatStore st') /\
      PipelineStore.executionResults (pipelineStore st2) =
        match results d with
        | Some (r0 :: rest) => r0 :: rest
        | _ => PipelineStore.executionResults (pipelineStore st')
        end
  | WorkflowStore.Rejected detail =>
      (exists msg, ChatStore.error (chatStore st2) = Some msg /\ msg <> "") /\
      pipelineStore st2 = pipelineStore st' /\
      effects st2 = effects st'
  end.
Proof.
  cbv zeta. split; [done|]. split; [done|]. split; [done|].
  destruct r as [d|detail]; unfold sendMessage_settle.
  - destruct (wants_update d), (results d) as [[|r0 rest]|]; cbn;
      (split; [by eexists|]); done.
  - cbn. split; [by eexists|].
    do 4 (split; [done|]).
    split; [|done]. eexists. split; [reflexivity|].
    by apply or_default_nonempty.
Qed.

(** A run of the whole action with nothing in between adds the user's
    message and then the assistant's, in this order. *)
Lemma sendMessage_uninterrupted (s1 s2 : Stamp) (content pipelineId : string)
    (r : WorkflowStore.Settled ChatResponse) (st : Stores) :
  exists reply,
    ChatStore.messages
      (chatStore (sendMessage_settle s2 pipelineId r
                    (sendMessage_begin s1 content pipelineId st).1))
    = ChatStore.messages (chatStore st)
        ++ [say ChatStore.user s1 content None; reply] /\
    ChatStore.role reply = ChatStore.assistant.
Proof.
  destruct r as [d|detail]; unfold sendMessage_settle.
  - destruct (wants_update d), (results d) as [[|r0 rest]|]; cbn;
      eexists; (split; [by rewrite <- app_assoc | done]).
  - cbn. eexists. split; [by rewrite <- app_assoc | done].
Qed.

End ChatMore.

(** ** The further properties at concrete states *)

Lemma updateWorkflowPhase_last_wins_witness :
  WorkflowStore.updateWorkflowPhase WorkflowStore.URL_COLLECTION
    (Samples.holding Samples.newer) = Samples.holding Samples.newer.
Proof.
  apply (updateWorkflowPhase_last_wins WorkflowStore.URL_COLLECTION
           WorkflowStore.INITIAL (Samples.holding Samples.newer)).
  reflexivity.
Defined.


Lemma disconnect_idempotent_witness :
  WebSocketStore.disconnect Samples.initial_world = Samples.initial_world.
Proof.
  apply (disconnect_idempotent Samples.initial_world). reflexivity.
Defined.

Lemma dispatch_footprint_witness :
  Dispatcher.pipelineStore
    (Dispatcher.dispatch Samples.noon
       (Samples.workflow_update Samples.newer)
       (Samples.stores_holding Samples.fresh))
  = Dispatcher.pipelineStore (Samples.stores_holding Samples.fresh).
Proof.
  apply (dispatch_footprint Samples.noon
           (Samples.workflow_update Samples.newer)
           (Samples.stores_holding Samples.fresh)).
Defined.

Lemma delete_removes_the_id_witness :
  PipelineStore.currentPipeline
    (PipelineStore.deletePipeline_settle "p2" true MoreSamples.two_pipelines)
  = Some (MoreSamples.pipeline "p1" PipelineStore.idle).
Proof.
  apply (delete_removes_the_id "p2" MoreSamples.two_pipelines).
  - reflexivity.
  - discriminate.
Defined.

Lemma sendMessage_adds_two_messages_witness :
  ChatStore.isLoading
    (Dispatcher.chatStore
       (ChatActions.sendMessage_settle MoreSamples.second_stamp "p1"
          (WorkflowStore.Rejected None)
          (ChatActions.sendMessage_begin MoreSamples.first_stamp "hello" "p1"
             Samples.empty_stores).1)) = false.
Proof.
  apply (sendMessage_adds_two_messages MoreSamples.first_stamp
           MoreSamples.second_stamp "hello" "p1" (WorkflowStore.Rejected None)
           Samples.empty_stores
           (ChatActions.sendMessage_begin MoreSamples.first_stamp "hello" "p1"
              Samples.empty_stores).1).
Defined.
